(** * PARA-fect: folder-path settings validation and the release script

    A shallow embedding of
    - the settings module of the plugin: [validateParaFolderPath], the blur
      handler installed by [setupFolderPathInput], and the two toggles of the
      settings tab;
    - [scripts/release.mjs]: the argument check and the version bump;
    together with the properties the specification states about them.

    JavaScript strings are sequences of UTF-16 code units; they are modelled
    as lists of code units ([N]), so that [===] is list equality and
    [String.prototype.trim] sees the full ECMAScript white-space set. *)

From Stdlib Require Import NArith Ascii String DecimalN.
From stdpp Require Import base decidable option numbers list.

Local Open Scope N_scope.

(** ** JavaScript string primitives *)

Module JS.

Definition codeUnit := N.
Definition jsString := list codeUnit.

(** A source literal: the code units of an ASCII string constant. *)
Definition lit (s : string) : jsString :=
  N_of_ascii <$> list_ascii_of_string s.

Definition SLASH : codeUnit := 47.
Definition DOT : codeUnit := 46.

(** [s.split(sep)] for a separator of one code unit.  The result is never
    empty: [''.split('/')] is [['']]. *)
Fixpoint split (sep : codeUnit) (s : jsString) : list jsString :=
  match s with
  | [] => [[]]
  | c :: s' =>
      if bool_decide (c = sep) then [] :: split sep s'
      else match split sep s' with
           | seg :: segs => (c :: seg) :: segs
           | [] => [[c]]
           end
  end.

(** [segs.join(sep)]. *)
Fixpoint join (sep : codeUnit) (segs : list jsString) : jsString :=
  match segs with
  | [] => []
  | [seg] => seg
  | seg :: segs' => seg ++ sep :: join sep segs'
  end.

(** ECMAScript WhiteSpace and LineTerminator code points, the set that
    [String.prototype.trim] removes. *)
Definition isWhiteSpace (c : codeUnit) : bool :=
  (9 <=? c) && (c <=? 13)
  || (c =? 32) || (c =? 160) || (c =? 5760)
  || (8192 <=? c) && (c <=? 8202)
  || (c =? 8232) || (c =? 8233) || (c =? 8239) || (c =? 8287)
  || (c =? 12288) || (c =? 65279).

Fixpoint trimStart (s : jsString) : jsString :=
  match s with
  | [] => []
  | c :: s' => if isWhiteSpace c then trimStart s' else s
  end.

(** Removal of the longest run at the end of [s] whose code units satisfy
    [p]: scanning from the left, the first position from which everything
    that remains satisfies [p] is where the result stops. *)
Fixpoint dropEndWhile (p : codeUnit → bool) (s : jsString) : jsString :=
  match s with
  | [] => []
  | c :: s' => if forallb p s then [] else c :: dropEndWhile p s'
  end.

Definition trimEnd (s : jsString) : jsString := dropEndWhile isWhiteSpace s.

(** [s.trim()] *)
Definition trim (s : jsString) : jsString := trimEnd (trimStart s).

(** [s.replace(/\/+$/, "")]: the pattern is tried at each start position from
    the left; it matches where the rest of the string is a non-empty run of
    slashes, and that run is replaced by the empty string. *)
Definition stripTrailingSlashes (s : jsString) : jsString :=
  dropEndWhile (λ c, bool_decide (c = SLASH)) s.

(** [a || b] on strings: the empty string is the only falsy string. *)
Definition orElse (a b : jsString) : jsString :=
  match a with
  | [] => b
  | _ :: _ => a
  end.

(** Truthiness of a [string | null] value, as tested by [if (error)]. *)
Definition truthy (v : option jsString) : bool :=
  match v with
  | None => false
  | Some [] => false
  | Some (_ :: _) => true
  end.

(** [t] is [raw] without its surrounding white space. *)
Definition Trimmed (raw t : jsString) : Prop :=
  ∃ pre post,
    raw = pre ++ t ++ post ∧
    forallb isWhiteSpace pre = true ∧ forallb isWhiteSpace post = true ∧
    (∀ c, head t = Some c → isWhiteSpace c = false) ∧
    (∀ c, last t = Some c → isWhiteSpace c = false).

(** [s] is [t] without its trailing slashes. *)
Definition SlashStripped (t s : jsString) : Prop :=
  (∃ k, t = s ++ replicate k SLASH) ∧ last s ≠ Some SLASH.

(** [s] starts, respectively ends, with a code unit satisfying [p]. *)
Definition headIs (p : codeUnit → bool) (s : jsString) : bool :=
  match head s with
  | Some c => p c
  | None => false
  end.

Definition lastIs (p : codeUnit → bool) (s : jsString) : bool :=
  match last s with
  | Some c => p c
  | None => false
  end.

Definition isSlash (c : codeUnit) : bool := bool_decide (c = SLASH).

(** A path that is not empty, does not start with white space and does not
    end with a slash. *)
Definition isCommittable (s : jsString) : bool :=
  bool_decide (s ≠ []) && negb (headIs isWhiteSpace s)
  && negb (lastIs isSlash s).

(** A committable path that does not end with white space either. *)
Definition isTidy (s : jsString) : bool :=
  isCommittable s && negb (lastIs isWhiteSpace s).

End JS.

Import JS.

(** ** utils.ts *)

Module Utils.

(** Boolean test: [xs] is a proper initial part of [ys]. *)
Fixpoint isStrictPrefix (xs ys : list jsString) : bool :=
  match xs, ys with
  | [], _ :: _ => true
  | x :: xs', y :: ys' => bool_decide (x = y) && isStrictPrefix xs' ys'
  | _, [] => false
  end.

(** Modelled from the spec: [isNestedPath] is imported from [./utils], whose
    source is not part of the tree.  Section 4.1 of the specification fixes
    it: path A nests with path B if and only if, with both split on [/], one
    sequence of segments is a strict prefix of the other. *)
Definition isNestedPath (path1 path2 : jsString) : bool :=
  let segs1 := split SLASH path1 in
  let segs2 := split SLASH path2 in
  isStrictPrefix segs1 segs2 || isStrictPrefix segs2 segs1.

(** One sequence of segments is a strict prefix of another: something
    non-empty follows it. *)
Definition StrictPrefix (xs ys : list jsString) : Prop :=
  ∃ k, k ≠ [] ∧ ys = xs ++ k.

End Utils.

Import Utils.

(** ** settings.ts *)

Module Settings.

Record ParaManagerSettings := mkSettings {
  projectsPath : jsString;
  areasPath : jsString;
  resourcesPath : jsString;
  archivePath : jsString;
  focusAfterArchive : bool;
  confirmBeforeArchive : bool;
}.

Definition DEFAULT_SETTINGS : ParaManagerSettings := {|
  projectsPath := lit "Projects";
  areasPath := lit "Areas";
  resourcesPath := lit "Resources";
  archivePath := lit "Archive";
  focusAfterArchive := true;
  confirmBeforeArchive := false;
|}.

(** [ParaFolderField]: the four keys ["projectsPath"], ["areasPath"],
    ["resourcesPath"], ["archivePath"] of the settings record. *)
Inductive ParaFolderField :=
  | kProjectsPath
  | kAreasPath
  | kResourcesPath
  | kArchivePath.

#[global] Instance ParaFolderField_eq_dec : EqDecision ParaFolderField.
Proof. solve_decision. Defined.

(** [settings[field]] *)
Definition getPath (settings : ParaManagerSettings) (field : ParaFolderField)
  : jsString :=
  match field with
  | kProjectsPath => projectsPath settings
  | kAreasPath => areasPath settings
  | kResourcesPath => resourcesPath settings
  | kArchivePath => archivePath settings
  end.

(** [settings[field] = path] *)
Definition setPath (settings : ParaManagerSettings) (field : ParaFolderField)
  (path : jsString) : ParaManagerSettings :=
  match field with
  | kProjectsPath =>
      mkSettings path (areasPath settings) (resourcesPath settings)
        (archivePath settings) (focusAfterArchive settings)
        (confirmBeforeArchive settings)
  | kAreasPath =>
      mkSettings (projectsPath settings) path (resourcesPath settings)
        (archivePath settings) (focusAfterArchive settings)
        (confirmBeforeArchive settings)
  | kResourcesPath =>
      mkSettings (projectsPath settings) (areasPath settings) path
        (archivePath settings) (focusAfterArchive settings)
        (confirmBeforeArchive settings)
  | kArchivePath =>
      mkSettings (projectsPath settings) (areasPath settings)
        (resourcesPath settings) path (focusAfterArchive settings)
        (confirmBeforeArchive settings)
  end.

Definition FOLDER_NAMES (field : ParaFolderField) : jsString :=
  match field with
  | kProjectsPath => lit "Projects"
  | kAreasPath => lit "Areas"
  | kResourcesPath => lit "Resources"
  | kArchivePath => lit "Archive"
  end.

Definition FOLDER_DEFAULTS (field : ParaFolderField) : jsString :=
  match field with
  | kProjectsPath => lit "Projects"
  | kAreasPath => lit "Areas"
  | kResourcesPath => lit "Resources"
  | kArchivePath => lit "Archive"
  end.

(** The two message templates of [validateParaFolderPath]. *)
Definition samePathMessage (thisName otherName : jsString) : jsString :=
  thisName ++ lit " folder cannot be the same as " ++ otherName ++ lit " folder".

Definition nestedPathMessage (thisName otherName : jsString) : jsString :=
  thisName ++ lit " folder cannot be nested with " ++ otherName ++ lit " folder".

Definition allFields : list ParaFolderField :=
  [kProjectsPath; kAreasPath; kResourcesPath; kArchivePath].

(** [allFields.filter((f) => f !== field)] *)
Definition otherFields (field : ParaFolderField) : list ParaFolderField :=
  filter (λ f, f ≠ field) allFields.

(** The [for (const otherField of otherFields)] loop; [Some] is an early
    [return] of a message, [None] is falling out of the loop. *)
Fixpoint validateLoop (newPath : jsString) (field : ParaFolderField)
  (settings : ParaManagerSettings) (fields : list ParaFolderField)
  : option jsString :=
  match fields with
  | [] => None
  | otherField :: rest =>
      let otherPath := getPath settings otherField in
      let otherName := FOLDER_NAMES otherField in
      let thisName := FOLDER_NAMES field in
      if bool_decide (newPath = otherPath) then
        Some (samePathMessage thisName otherName)
      else if isNestedPath newPath otherPath then
        Some (nestedPathMessage thisName otherName)
      else validateLoop newPath field settings rest
  end.

(** Returns the error message, or [None] for [null]. *)
Definition validateParaFolderPath (newPath : jsString) (field : ParaFolderField)
  (settings : ParaManagerSettings) : option jsString :=
  validateLoop newPath field settings (otherFields field).

(** The specification's reading of the result: [Valid], or a conflict of one
    of two kinds naming the edited role and the other role. *)
Inductive ConflictKind := SamePath | NestedPath.

Inductive ValidationResult :=
  | Valid
  | Conflict (kind : ConflictKind) (thisRole otherRole : ParaFolderField).

(** The value [validateParaFolderPath] returns for each result. *)
Definition render (r : ValidationResult) : option jsString :=
  match r with
  | Valid => None
  | Conflict SamePath this other =>
      Some (samePathMessage (FOLDER_NAMES this) (FOLDER_NAMES other))
  | Conflict NestedPath this other =>
      Some (nestedPathMessage (FOLDER_NAMES this) (FOLDER_NAMES other))
  end.

(** The candidate conflicts with the path [otherPath] of another role. *)
Definition conflictsWith (newPath otherPath : jsString) : bool :=
  bool_decide (newPath = otherPath) || isNestedPath newPath otherPath.

(** The text input of one folder setting. *)
Record TextComponent := mkText {
  value : jsString;
  placeholder : jsString;
  invalidClass : bool;
  borderColor : jsString;
  backgroundColor : jsString;
}.

(** What a handler does besides updating the settings object and the text
    input.  [CallValidate] records the arguments of the call of
    [validateParaFolderPath]. *)
Inductive Effect :=
  | CallValidate (newPath : jsString) (field : ParaFolderField)
      (settings : ParaManagerSettings)
  | ShowNotice (message : jsString)
  | SetTimeout (ms : N)
  | SaveSettings (settings : ParaManagerSettings).

Record Outcome := mkOutcome {
  text' : TextComponent;
  settings' : ParaManagerSettings;
  effects : list Effect;
}.

(** [value.trim().replace(/\/+$/, "") || FOLDER_DEFAULTS[field]] *)
Definition normalize (value : jsString) (field : ParaFolderField) : jsString :=
  orElse (stripTrailingSlashes (trim value)) (FOLDER_DEFAULTS field).

(** [text.setPlaceholder(FOLDER_DEFAULTS[field]).setValue(plugin.settings[field])] *)
Definition setupFolderPathInput (text : TextComponent) (field : ParaFolderField)
  (settings : ParaManagerSettings) : TextComponent :=
  mkText (getPath settings field) (FOLDER_DEFAULTS field)
    (invalidClass text) (borderColor text) (backgroundColor text).

(** The ["blur"] listener installed by [setupFolderPathInput]. *)
Definition onBlur (text : TextComponent) (field : ParaFolderField)
  (settings : ParaManagerSettings) : Outcome :=
  let value := value text in
  let normalized := normalize value field in
  let error := validateParaFolderPath normalized field settings in
  if truthy error then
    {| text' := mkText (getPath settings field) (placeholder text) true
                  (lit "var(--text-error)")
                  (lit "rgba(var(--color-red-rgb), 0.1)");
       settings' := settings;
       effects := [CallValidate normalized field settings;
                   ShowNotice (default [] error);
                   SetTimeout 100] |}
  else
    {| text' := mkText (value) (placeholder text) false [] [];
       settings' := setPath settings field normalized;
       effects := [CallValidate normalized field settings;
                   SaveSettings (setPath settings field normalized)] |}.

(** The callback scheduled by [setTimeout] after a rejected edit. *)
Definition clearErrorStyling (text : TextComponent) : TextComponent :=
  mkText (value text) (placeholder text) false [] [].

(** The [onChange] handlers of the two toggles. *)
Definition onChangeFocusAfterArchive (v : bool) (settings : ParaManagerSettings)
  : ParaManagerSettings :=
  mkSettings (projectsPath settings) (areasPath settings)
    (resourcesPath settings) (archivePath settings) v
    (confirmBeforeArchive settings).

Definition onChangeConfirmBeforeArchive (v : bool)
  (settings : ParaManagerSettings) : ParaManagerSettings :=
  mkSettings (projectsPath settings) (areasPath settings)
    (resourcesPath settings) (archivePath settings)
    (focusAfterArchive settings) v.

(** One user edit of a folder field: the text the user left in the input,
    then the blur. *)
Definition blurCommit (field : ParaFolderField) (typed : jsString)
  (text : TextComponent) (settings : ParaManagerSettings) : Outcome :=
  onBlur (mkText typed (placeholder text) (invalidClass text)
            (borderColor text) (backgroundColor text)) field settings.

(** The PathAssignment invariant of the specification, over ordered pairs of
    distinct roles. *)
Definition PathInvariant (settings : ParaManagerSettings) : Prop :=
  ∀ r1 r2, r1 ≠ r2 →
    getPath settings r1 ≠ getPath settings r2 ∧
    isNestedPath (getPath settings r1) (getPath settings r2) = false.

Definition checkInvariant (settings : ParaManagerSettings) : bool :=
  forallb (λ r1,
    forallb (λ r2,
      bool_decide (r1 = r2)
      || negb (conflictsWith (getPath settings r1) (getPath settings r2)))
      allFields) allFields.

(** What the user can do on the settings tab. *)
Inductive Action :=
  | EditFolder (field : ParaFolderField) (typed : jsString)
  | ToggleFocus (v : bool)
  | ToggleConfirm (v : bool).

(** The candidates handed to [validateParaFolderPath] during a handler. *)
Definition validateCalls (es : list Effect) : list jsString :=
  omap (λ e, match e with CallValidate p _ _ => Some p | _ => None end) es.

Definition act (a : Action) (text : TextComponent)
  (settings : ParaManagerSettings) : ParaManagerSettings :=
  match a with
  | EditFolder field typed => settings' (blurCommit field typed text settings)
  | ToggleFocus v => onChangeFocusAfterArchive v settings
  | ToggleConfirm v => onChangeConfirmBeforeArchive v settings
  end.

(** The notices shown and the records saved during a handler. *)
Definition notices (es : list Effect) : list jsString :=
  omap (λ e, match e with ShowNotice m => Some m | _ => None end) es.

Definition saves (es : list Effect) : list ParaManagerSettings :=
  omap (λ e, match e with SaveSettings s => Some s | _ => None end) es.

(** Every configured path is committable. *)
Definition CommittablePaths (settings : ParaManagerSettings) : Prop :=
  ∀ field, isCommittable (getPath settings field) = true.

End Settings.

(** ** scripts/release.mjs *)

Module Release.

(** [Number.MAX_SAFE_INTEGER], 2^53 - 1: up to it, and for its successor,
    JavaScript number arithmetic on integers is exact. *)
Definition MAX_SAFE_INTEGER : N := 9007199254740991.

Definition digitOf (c : codeUnit) : option (Decimal.uint → Decimal.uint) :=
  match c with
  | 48 => Some Decimal.D0 | 49 => Some Decimal.D1 | 50 => Some Decimal.D2
  | 51 => Some Decimal.D3 | 52 => Some Decimal.D4 | 53 => Some Decimal.D5
  | 54 => Some Decimal.D6 | 55 => Some Decimal.D7 | 56 => Some Decimal.D8
  | 57 => Some Decimal.D9
  | _ => None
  end.

Fixpoint digitsOf (s : jsString) : option Decimal.uint :=
  match s with
  | [] => Some Decimal.Nil
  | c :: s' =>
      match digitOf c, digitsOf s' with
      | Some d, Some u => Some (d u)
      | _, _ => None
      end
  end.

(** [Number(s)] where the model follows it: [s] is a run of decimal digits
    (the empty string converts to 0) whose value is a safe integer.  [None]
    stands for every other case (NaN, signs, exponents, white space,
    rounding above 2^53), which the model does not follow. *)
Definition Number (s : jsString) : option N :=
  match digitsOf s with
  | Some u =>
      let n := N.of_uint u in
      if n <=? MAX_SAFE_INTEGER then Some n else None
  | None => None
  end.

Fixpoint codesOf (u : Decimal.uint) : jsString :=
  match u with
  | Decimal.Nil => []
  | Decimal.D0 u' => 48 :: codesOf u' | Decimal.D1 u' => 49 :: codesOf u'
  | Decimal.D2 u' => 50 :: codesOf u' | Decimal.D3 u' => 51 :: codesOf u'
  | Decimal.D4 u' => 52 :: codesOf u' | Decimal.D5 u' => 53 :: codesOf u'
  | Decimal.D6 u' => 54 :: codesOf u' | Decimal.D7 u' => 55 :: codesOf u'
  | Decimal.D8 u' => 56 :: codesOf u' | Decimal.D9 u' => 57 :: codesOf u'
  end.

(** [`${n}`] for a non-negative integer up to 2^53: its decimal digits. *)
Definition toString (n : N) : jsString := codesOf (N.to_uint n).

(** [`${a}.${b}.${c}`] *)
Definition versionString (a b c : N) : jsString :=
  toString a ++ DOT :: toString b ++ DOT :: toString c.

(** [process.argv[2] || 'patch']; [None] is [undefined]. *)
Definition BUMP_TYPE (argv2 : option jsString) : jsString :=
  match argv2 with
  | None => lit "patch"
  | Some s => orElse s (lit "patch")
  end.

(** [['patch', 'minor', 'major'].includes(bump)] *)
Definition isBumpType (bump : jsString) : bool :=
  bool_decide (bump ∈ [lit "patch"; lit "minor"; lit "major"]).

(** [const [major, minor, patch] = version.split('.').map(Number)]: a missing
    element is [undefined], which the model does not follow either. *)
Definition component (version : jsString) (i : nat) : option N :=
  (Number <$> split DOT version) !! i ≫= id.

(** The [switch (BUMP_TYPE)]; the result is [None] when a component the
    chosen case uses is outside the model, or when no case applies. *)
Definition newVersion (bump version : jsString) : option jsString :=
  let major := component version 0 in
  let minor := component version 1 in
  let patch := component version 2 in
  if bool_decide (bump = lit "major") then
    major ← major;
    Some (toString (major + 1) ++ lit ".0.0")
  else if bool_decide (bump = lit "minor") then
    major ← major; minor ← minor;
    Some (toString major ++ DOT :: toString (minor + 1) ++ lit ".0")
  else if bool_decide (bump = lit "patch") then
    major ← major; minor ← minor; patch ← patch;
    Some (toString major ++ DOT :: toString minor ++ DOT :: toString (patch + 1))
  else None.

(** The three JSON files, as the fields the script touches. *)
Record Manifest := mkManifest {
  version : jsString;
  minAppVersion : jsString;
}.

Record Files := mkFiles {
  manifest_json : Manifest;
  package_json_version : jsString;
  versions_json : list (jsString * jsString);
}.

(** [obj[key] = v] on an object with string keys that are not array
    indices: an existing key keeps its place, a new key goes last. *)
Fixpoint setKey (key v : jsString) (obj : list (jsString * jsString))
  : list (jsString * jsString) :=
  match obj with
  | [] => [(key, v)]
  | (k, w) :: obj' =>
      if bool_decide (k = key) then (k, v) :: obj'
      else (k, w) :: setKey key v obj'
  end.

Inductive Event :=
  | ConsoleError (message : jsString)
  | ConsoleLog (message : jsString)
  | ReadFile (file : jsString)
  | WriteFile (file : jsString)
  | Exec (cmd : jsString) (args : list jsString)
  | Exit (code : N).

Record Run := mkRun {
  events : list Event;
  files' : Files;
}.

Definition usage : jsString :=
  lit "Usage: node scripts/release.mjs [patch|minor|major]".

(** [run(cmd, args)] *)
Definition run (cmd : jsString) (args : list jsString) : list Event :=
  [ConsoleLog (lit "$ " ++ cmd ++ lit " " ++ join 32 args); Exec cmd args].

(** The script, top to bottom, for the run in which the three files exist
    and every command succeeds.  [None]: the version in [manifest.json] is
    outside what [newVersion] follows. *)
Definition release (argv2 : option jsString) (files : Files) : option Run :=
  let bump := BUMP_TYPE argv2 in
  if negb (isBumpType bump) then
    Some {| events := [ConsoleError usage; Exit 1]; files' := files |}
  else
    let manifest := manifest_json files in
    new ← newVersion bump (version manifest);
    let manifest' := mkManifest new (minAppVersion manifest) in
    Some {|
      events :=
        [ReadFile (lit "manifest.json");
         ConsoleLog (lit "Current version: " ++ version manifest);
         ConsoleLog (lit "New version: " ++ new);
         WriteFile (lit "manifest.json");
         ConsoleLog (lit "Updated manifest.json");
         ReadFile (lit "package.json");
         WriteFile (lit "package.json");
         ConsoleLog (lit "Updated package.json");
         ReadFile (lit "versions.json");
         WriteFile (lit "versions.json");
         ConsoleLog (lit "Updated versions.json")]
        ++ run (lit "npm") [lit "run"; lit "build"]
        ++ run (lit "git") [lit "add"; lit "manifest.json";
                            lit "package.json"; lit "versions.json"]
        ++ run (lit "git") [lit "commit"; lit "-m";
                            lit "Bump version to " ++ new]
        ++ run (lit "git") [lit "tag"; new]
        ++ run (lit "git") [lit "push"; lit "origin"; lit "main"; lit "--tags"]
        ++ run (lit "gh") [lit "release"; lit "create"; new;
                           lit "--title=v" ++ new; lit "--generate-notes";
                           lit "main.js"; lit "manifest.json"]
        ++ [ConsoleLog ([10; 10003; 32] ++ lit "Released v" ++ new)];
      files' :=
        mkFiles manifest' new
          (setKey new (minAppVersion manifest') (versions_json files))
    |}.

(** The run touches a file. *)
Definition touchesFile (e : Event) : bool :=
  match e with
  | ReadFile _ | WriteFile _ => true
  | _ => false
  end.

(** The run ends the process with an exit code. *)
Definition exits (e : Event) : bool :=
  match e with
  | Exit _ => true
  | _ => false
  end.

(** [obj[key]] read on an object with string keys. *)
Fixpoint getKey (key : jsString) (obj : list (jsString * jsString))
  : option jsString :=
  match obj with
  | [] => None
  | (k, w) :: obj' => if bool_decide (k = key) then Some w else getKey key obj'
  end.

(** The commands a run executes, in order. *)
Definition commands (es : list Event) : list (jsString * list jsString) :=
  omap (λ e, match e with Exec cmd args => Some (cmd, args) | _ => None end) es.

Definition isExec (e : Event) : bool :=
  match e with
  | Exec _ _ => true
  | _ => false
  end.

(** The text after a component of a version: nothing, or a dot and
    anything. *)
Definition ComponentEnd (t : jsString) : Prop :=
  t = [] ∨ ∃ rest, t = DOT :: rest.

(** Precedence of versions: lexicographic on (major, minor, patch). *)
Definition versionLt (v w : N * N * N) : Prop :=
  let '(a, b, c) := v in
  let '(a', b', c') := w in
  a < a' ∨ (a = a' ∧ (b < b' ∨ (b = b' ∧ c < c'))).

End Release.

(** * Properties *)

(** ** Segments and nesting *)

Section Segments.

Implicit Types (s t : jsString) (xs ys : list jsString).

Lemma split_nonempty sep s : split sep s ≠ [].
Proof.
  destruct s as [|c s]; simpl; [done|].
  case_bool_decide; [done|]. by destruct (split sep s).
Qed.

Lemma join_split sep s : join sep (split sep s) = s.
Proof.
  induction s as [|c s IH]; simpl; [done|].
  case_bool_decide as Hc.
  - subst c. pose proof (split_nonempty sep s) as Hne.
    destruct (split sep s) as [|seg segs]; [done|].
    simpl in *. by rewrite IH.
  - destruct (split sep s) as [|seg segs] eqn:E.
    + by destruct (split_nonempty sep s).
    + rewrite <- IH. by destruct segs.
Qed.

Lemma split_app_sep sep s t :
  split sep (s ++ sep :: t) = split sep s ++ split sep t.
Proof.
  induction s as [|c s IH]; simpl.
  - by rewrite bool_decide_eq_true_2.
  - case_bool_decide; rewrite IH; [done|].
    pose proof (split_nonempty sep s) as Hne.
    by destruct (split sep s).
Qed.

Lemma join_app sep xs ys :
  xs ≠ [] → ys ≠ [] → join sep (xs ++ ys) = join sep xs ++ sep :: join sep ys.
Proof.
  intros Hxs Hys. induction xs as [|x xs IH]; [done|].
  destruct xs as [|x' xs].
  - simpl. by destruct ys.
  - change (join sep ((x :: x' :: xs) ++ ys))
      with (x ++ sep :: join sep ((x' :: xs) ++ ys)).
    rewrite IH by done. simpl. by rewrite <- app_assoc.
Qed.

Lemma isStrictPrefix_spec xs ys :
  isStrictPrefix xs ys = true ↔ StrictPrefix xs ys.
Proof.
  revert ys. induction xs as [|x xs IH]; intros [|y ys]; simpl.
  - split; [done|]. intros (k & Hk & Heq). simpl in Heq. by subst k.
  - split; [|done]. intros _. by exists (y :: ys).
  - split; [done|]. by intros (k & _ & ?).
  - rewrite andb_true_iff, bool_decide_eq_true, IH. split.
    + intros [-> (k & Hk & ->)]. by exists k.
    + intros (k & Hk & Heq). injection Heq as -> ->. split; [done|by exists k].
Qed.

Lemma isStrictPrefix_irrefl xs : isStrictPrefix xs xs = false.
Proof.
  induction xs as [|x xs IH]; simpl; [done|].
  by rewrite IH, andb_false_r.
Qed.

Lemma isNestedPath_comm s t : isNestedPath s t = isNestedPath t s.
Proof. unfold isNestedPath. apply orb_comm. Qed.

Lemma isNestedPath_irrefl s : isNestedPath s s = false.
Proof. unfold isNestedPath. by rewrite isStrictPrefix_irrefl. Qed.

Lemma isNestedPath_spec s t :
  isNestedPath s t = true ↔
  StrictPrefix (split SLASH s) (split SLASH t) ∨
  StrictPrefix (split SLASH t) (split SLASH s).
Proof.
  unfold isNestedPath. by rewrite orb_true_iff, !isStrictPrefix_spec.
Qed.

(** On the strings themselves: the segments of [s] strictly begin those of
    [t] exactly when [t] continues [s] with a slash. *)
Lemma StrictPrefix_split s t :
  StrictPrefix (split SLASH s) (split SLASH t) ↔ ∃ r, t = s ++ SLASH :: r.
Proof.
  split.
  - intros (k & Hk & Heq). exists (join SLASH k).
    rewrite <- (join_split SLASH t), Heq, join_app, join_split;
      auto using split_nonempty.
  - intros [r ->]. exists (split SLASH r).
    split; [apply split_nonempty | apply split_app_sep].
Qed.

(** Nesting read on the strings: one path continues the other with a slash.
    In particular a path that merely begins like another one, without a
    slash after it, is not nested with it. *)
Lemma isNestedPath_slash s t :
  isNestedPath s t = true ↔
  (∃ r, t = s ++ SLASH :: r) ∨ (∃ r, s = t ++ SLASH :: r).
Proof. by rewrite isNestedPath_spec, !StrictPrefix_split. Qed.

End Segments.

(** ** The validator *)

Section Validator.

Import Settings.

Implicit Types (newPath : jsString) (field other : ParaFolderField)
  (settings : ParaManagerSettings).

Lemma conflictsWith_false newPath otherPath :
  conflictsWith newPath otherPath = false ↔
  newPath ≠ otherPath ∧ isNestedPath newPath otherPath = false.
Proof.
  unfold conflictsWith. rewrite orb_false_iff, bool_decide_eq_false. done.
Qed.

Lemma elem_of_otherFields field other :
  other ∈ otherFields field ↔ other ≠ field.
Proof.
  unfold otherFields. rewrite list_elem_of_filter.
  split; [by intros [? _]|]. intros Hne. split; [done|].
  unfold allFields. destruct other; repeat constructor.
Qed.

Lemma validateLoop_None newPath field settings fields :
  validateLoop newPath field settings fields = None ↔
  ∀ other, other ∈ fields →
    conflictsWith newPath (getPath settings other) = false.
Proof.
  induction fields as [|o rest IH]; simpl.
  - split; [|done]. intros _ other Hin. by apply elem_of_nil in Hin.
  - unfold conflictsWith in *. split.
    + intros Hloop other Hin. apply elem_of_cons in Hin as [->|Hin];
        destruct (bool_decide (newPath = getPath settings o)); try done;
        destruct (isNestedPath newPath (getPath settings o)); try done.
      by apply IH.
    + intros Hall. pose proof (Hall o ltac:(left)) as Ho.
      apply orb_false_iff in Ho as [-> ->].
      apply IH. intros other Hin. apply Hall. by right.
Qed.

(** The loop stops at the first field of the list whose path conflicts. *)
Lemma validateLoop_first newPath field settings pre other post :
  (∀ f, f ∈ pre → conflictsWith newPath (getPath settings f) = false) →
  conflictsWith newPath (getPath settings other) = true →
  validateLoop newPath field settings (pre ++ other :: post) =
  render (Conflict
            (if bool_decide (newPath = getPath settings other)
             then SamePath else NestedPath) field other).
Proof.
  intros Hpre Hother. induction pre as [|f pre IH]; simpl.
  - unfold conflictsWith in Hother.
    destruct (bool_decide (newPath = getPath settings other)); [done|].
    simpl in Hother. by rewrite Hother.
  - pose proof (Hpre f ltac:(left)) as Hf.
    apply orb_false_iff in Hf as [-> ->].
    apply IH. intros g Hg. apply Hpre. by right.
Qed.

(** A message returned by the loop comes from the first conflicting field. *)
Lemma validateLoop_Some newPath field settings fields message :
  validateLoop newPath field settings fields = Some message →
  ∃ pre other post,
    fields = pre ++ other :: post ∧
    (∀ f, f ∈ pre → conflictsWith newPath (getPath settings f) = false) ∧
    conflictsWith newPath (getPath settings other) = true.
Proof.
  induction fields as [|o rest IH]; simpl; [done|].
  destruct (conflictsWith newPath (getPath settings o)) eqn:Ho.
  - intros _. exists [], o, rest. split; [done|]. split; [|done].
    intros f Hf. by apply elem_of_nil in Hf.
  - apply orb_false_iff in Ho as Ho'. destruct Ho' as [-> ->].
    intros (pre & other & post & -> & Hpre & Hother)%IH.
    exists (o :: pre), other, post. split; [done|]. split; [|done].
    intros f [->|Hf]%elem_of_cons; [done|by apply Hpre].
Qed.

(** Every result of the loop is [null] or one of the two messages, for the
    edited field and a field of the list. *)
Lemma validateLoop_shape newPath field settings fields :
  validateLoop newPath field settings fields = None ∨
  ∃ kind other, other ∈ fields ∧
    validateLoop newPath field settings fields =
    render (Conflict kind field other).
Proof.
  induction fields as [|o rest IH]; simpl; [by left|].
  destruct (bool_decide (newPath = getPath settings o)).
  { right. exists SamePath, o. split; [by left|done]. }
  destruct (isNestedPath newPath (getPath settings o)).
  { right. exists NestedPath, o. split; [by left|done]. }
  destruct IH as [->|(kind & other & Hin & ->)]; [by left|].
  right. exists kind, other. split; [by right|done].
Qed.

Lemma getPath_setPath settings field path :
  getPath (setPath settings field path) field = path.
Proof. by destruct field. Qed.

Lemma getPath_setPath_ne settings field other path :
  other ≠ field →
  getPath (setPath settings field path) other = getPath settings other.
Proof. by destruct field, other. Qed.

Lemma validateLoop_ext newPath field settings1 settings2 fields :
  (∀ other, other ∈ fields →
     getPath settings1 other = getPath settings2 other) →
  validateLoop newPath field settings1 fields =
  validateLoop newPath field settings2 fields.
Proof.
  intros Hext. induction fields as [|o rest IH]; simpl; [done|].
  rewrite (Hext o) by by left.
  rewrite IH; [done|]. intros other Hin. apply Hext. by right.
Qed.

(** The messages tell the kind and both roles apart. *)
Lemma render_inj r1 r2 : render r1 = render r2 → r1 = r2.
Proof.
  destruct r1 as [|[] [] []], r2 as [|[] [] []];
    first [reflexivity | intros H; exfalso; vm_compute in H; discriminate H].
Qed.

Lemma render_truthy r :
  truthy (render r) = match r with Valid => false | Conflict _ _ _ => true end.
Proof. by destruct r as [|[] [] []]. Qed.

End Validator.

Section ValidatorClaims.

Import Settings.

Implicit Types (newPath : jsString) (field other : ParaFolderField)
  (settings : ParaManagerSettings).

Lemma NoDup_otherFields field : NoDup (otherFields field).
Proof.
  destruct field; by apply (bool_decide_unpack (NoDup _)).
Qed.

Lemma validate_None newPath field settings :
  validateParaFolderPath newPath field settings = None ↔
  ∀ other, other ≠ field →
    conflictsWith newPath (getPath settings other) = false.
Proof.
  unfold validateParaFolderPath. rewrite validateLoop_None.
  by setoid_rewrite elem_of_otherFields.
Qed.

(** When exactly one other role conflicts, the result names that role. *)
Lemma validate_single_conflict newPath field other settings :
  other ≠ field →
  (∀ f, f ≠ field → f ≠ other →
     conflictsWith newPath (getPath settings f) = false) →
  conflictsWith newPath (getPath settings other) = true →
  validateParaFolderPath newPath field settings =
  render (Conflict
            (if bool_decide (newPath = getPath settings other)
             then SamePath else NestedPath) field other).
Proof.
  intros Hne Hrest Hother.
  pose proof (NoDup_otherFields field) as Hnd.
  apply elem_of_otherFields, list_elem_of_split in Hne as (pre & post & Heq).
  unfold validateParaFolderPath. rewrite Heq in *.
  apply validateLoop_first; [|done].
  intros f Hf. apply Hrest.
  - apply elem_of_otherFields. rewrite Heq. apply elem_of_app. by left.
  - apply NoDup_app in Hnd as (_ & Hnd & _). intros ->.
    apply (Hnd other Hf). by left.
Qed.

Lemma checkInvariant_spec settings :
  checkInvariant settings = true ↔ PathInvariant settings.
Proof.
  assert (Hall : ∀ r, In r allFields) by (intros []; simpl; tauto).
  unfold checkInvariant, PathInvariant. rewrite forallb_forall. split.
  - intros H r1 r2 Hne. specialize (H r1 (Hall r1)).
    rewrite forallb_forall in H. specialize (H r2 (Hall r2)).
    apply orb_true_iff in H as [H|H].
    + by apply bool_decide_eq_true in H.
    + by apply negb_true_iff, conflictsWith_false in H.
  - intros H r1 _. apply forallb_forall. intros r2 _.
    apply orb_true_iff. destruct (decide (r1 = r2)) as [->|Hne].
    + left. by apply bool_decide_eq_true.
    + right. by apply negb_true_iff, conflictsWith_false, H.
Qed.

(** C1.  [validateParaFolderPath newPath field settings] returns [null]
    exactly when [newPath] is different from, and not nested with, the path
    of every role other than [field]; and the path the settings hold for
    [field] itself does not influence the result. *)
Theorem validate_valid_iff newPath field settings :
  (validateParaFolderPath newPath field settings = None ↔
   ∀ other, other ≠ field →
     newPath ≠ getPath settings other ∧
     isNestedPath newPath (getPath settings other) = false)
  ∧ (∀ stale,
       validateParaFolderPath newPath field (setPath settings field stale) =
       validateParaFolderPath newPath field settings).
Proof.
  split.
  - rewrite validate_None. by setoid_rewrite conflictsWith_false.
  - intros stale. apply validateLoop_ext. intros other Hin.
    apply elem_of_otherFields in Hin. by apply getPath_setPath_ne.
Qed.

(** C2.  [isNestedPath A B] holds exactly when, with both paths split on
    [/], the segments of one are a strict prefix of the segments of the
    other.  Against another role holding ["Projects"] (the remaining roles
    not conflicting), the candidate ["Proj"] is valid and the candidate
    ["Projects/Archive"] is a nested-path conflict with that role. *)
Theorem nesting_is_segment_prefix :
  (∀ A B : jsString,
     isNestedPath A B = true ↔
     StrictPrefix (split SLASH A) (split SLASH B) ∨
     StrictPrefix (split SLASH B) (split SLASH A))
  ∧ (∀ field other settings,
       other ≠ field →
       getPath settings other = lit "Projects" →
       (∀ f, f ≠ field → f ≠ other →
          conflictsWith (lit "Proj") (getPath settings f) = false) →
       validateParaFolderPath (lit "Proj") field settings = render Valid)
  ∧ (∀ field other settings,
       other ≠ field →
       getPath settings other = lit "Projects" →
       (∀ f, f ≠ field → f ≠ other →
          conflictsWith (lit "Projects/Archive") (getPath settings f) = false) →
       validateParaFolderPath (lit "Projects/Archive") field settings =
       render (Conflict NestedPath field other)).
Proof.
  split; [exact isNestedPath_spec|]. split.
  - intros field other settings Hne Hother Hrest. apply validate_None.
    intros f Hf. destruct (decide (f = other)) as [->|Hfo]; [|by apply Hrest].
    by rewrite Hother.
  - intros field other settings Hne Hother Hrest.
    rewrite (validate_single_conflict _ field other); try done.
    all: by rewrite Hother.
Qed.

Lemma nesting_is_segment_prefix_witness :
  validateParaFolderPath (lit "Proj") kAreasPath DEFAULT_SETTINGS = render Valid
  ∧ validateParaFolderPath (lit "Projects/Archive") kAreasPath DEFAULT_SETTINGS
    = render (Conflict NestedPath kAreasPath kProjectsPath).
Proof.
  destruct nesting_is_segment_prefix as (_ & Hproj & Harch). split.
  - apply (Hproj kAreasPath kProjectsPath DEFAULT_SETTINGS);
      [discriminate | reflexivity |].
    intros [] ? ?; solve [congruence | vm_compute; reflexivity].
  - apply (Harch kAreasPath kProjectsPath DEFAULT_SETTINGS);
      [discriminate | reflexivity |].
    intros [] ? ?; solve [congruence | vm_compute; reflexivity].
Defined.

(** C3.  The other roles are visited in the order Projects, Areas,
    Resources, Archive with the edited role left out.  The result is decided
    by the first role in that order whose path conflicts, whatever the later
    roles hold: if the candidate equals that role's path the result is the
    same-path message for that role, and no nested-path message; otherwise
    it is the nested-path message for that role.  Conversely every conflict
    returned names the edited role and the first conflicting role, as a
    same-path conflict exactly when the two paths are equal. *)
Theorem first_conflict_reported :
  (otherFields kProjectsPath = [kAreasPath; kResourcesPath; kArchivePath]
   ∧ otherFields kAreasPath = [kProjectsPath; kResourcesPath; kArchivePath]
   ∧ otherFields kResourcesPath = [kProjectsPath; kAreasPath; kArchivePath]
   ∧ otherFields kArchivePath = [kProjectsPath; kAreasPath; kResourcesPath])
  ∧ (∀ newPath field settings pre other post,
      otherFields field = pre ++ other :: post →
      (∀ f, f ∈ pre →
         newPath ≠ getPath settings f ∧
         isNestedPath newPath (getPath settings f) = false) →
      (newPath = getPath settings other →
         validateParaFolderPath newPath field settings =
           render (Conflict SamePath field other)
         ∧ ∀ r o, validateParaFolderPath newPath field settings ≠
                  render (Conflict NestedPath r o))
      ∧ (newPath ≠ getPath settings other →
         isNestedPath newPath (getPath settings other) = true →
         validateParaFolderPath newPath field settings =
           render (Conflict NestedPath field other)))
  ∧ ∀ newPath field settings kind this other,
      validateParaFolderPath newPath field settings =
        render (Conflict kind this other) →
      this = field
      ∧ (kind = SamePath ↔ newPath = getPath settings other)
      ∧ (kind = NestedPath →
         isNestedPath newPath (getPath settings other) = true)
      ∧ ∃ pre post,
          otherFields field = pre ++ other :: post ∧
          ∀ f, f ∈ pre →
            newPath ≠ getPath settings f ∧
            isNestedPath newPath (getPath settings f) = false.
Proof.
  split; [done|]. split; cycle 1.
  { intros newPath field settings kind this other Hres.
    unfold validateParaFolderPath in Hres.
    assert (Hmsg : ∃ message, render (Conflict kind this other) = Some message)
      by (destruct kind; eauto).
    destruct Hmsg as [message Hmsg].
    destruct (validateLoop_Some newPath field settings (otherFields field)
                message) as (pre & o & post & Heq & Hpre & Ho);
      [by rewrite Hres|].
    rewrite Heq, (validateLoop_first _ _ _ _ _ _ Hpre Ho) in Hres.
    apply render_inj in Hres. injection Hres as Hkind <- <-.
    unfold conflictsWith in Ho. split; [done|].
    case_bool_decide as Hsame; subst kind.
    - split; [done|]. split; [done|]. exists pre, post. split; [done|].
      intros f Hf. by apply conflictsWith_false, Hpre.
    - simpl in Ho. split; [done|]. split; [done|].
      exists pre, post. split; [done|].
      intros f Hf. by apply conflictsWith_false, Hpre. }
  intros newPath field settings pre other post Heq Hpre.
  assert (Hpre' : ∀ f, f ∈ pre →
            conflictsWith newPath (getPath settings f) = false).
  { intros f Hf. by apply conflictsWith_false, Hpre. }
  unfold validateParaFolderPath. rewrite Heq. split.
  - intros Hsame.
    assert (Hres : validateLoop newPath field settings (pre ++ other :: post)
                   = render (Conflict SamePath field other)).
    { rewrite validateLoop_first; [|done|].
      - by rewrite bool_decide_eq_true_2.
      - unfold conflictsWith. by rewrite bool_decide_eq_true_2. }
    split; [done|]. intros r o. rewrite Hres. intros Hr.
    by apply render_inj in Hr.
  - intros Hdiff Hnested. rewrite validateLoop_first; [|done|].
    + by rewrite bool_decide_eq_false_2.
    + unfold conflictsWith. by rewrite Hnested, orb_true_r.
Qed.

Lemma first_conflict_reported_witness :
  let settings :=
    mkSettings (lit "Projects") (lit "Projects/X") (lit "Projects/X/Y")
      (lit "Archive") true false in
  validateParaFolderPath (lit "Projects/X") kArchivePath settings =
    render (Conflict NestedPath kArchivePath kProjectsPath)
  ∧ validateParaFolderPath (lit "Projects") kArchivePath settings =
    render (Conflict SamePath kArchivePath kProjectsPath).
Proof.
  intros settings. destruct first_conflict_reported as (_ & Hfirst & _). split.
  - apply (Hfirst (lit "Projects/X") kArchivePath settings []
             kProjectsPath [kAreasPath; kResourcesPath]).
    + reflexivity.
    + intros f Hf. by apply elem_of_nil in Hf.
    + vm_compute. discriminate.
    + vm_compute. reflexivity.
  - apply (Hfirst (lit "Projects") kArchivePath settings []
             kProjectsPath [kAreasPath; kResourcesPath]).
    + reflexivity.
    + intros f Hf. by apply elem_of_nil in Hf.
    + reflexivity.
Defined.

(** C4.  [validateParaFolderPath] is a total function whose result is
    [null], or the same-path message, or the nested-path message, in the
    last two cases for the edited role and one of the other roles; the three
    shapes, and the roles named, can be told apart from the message. *)
Theorem validate_result_shapes newPath field settings :
  (∃ r, validateParaFolderPath newPath field settings = render r ∧
        (r = Valid ∨
         ∃ other, other ≠ field ∧
           (r = Conflict SamePath field other ∨
            r = Conflict NestedPath field other)))
  ∧ (∀ r1 r2, render r1 = render r2 → r1 = r2).
Proof.
  split; [|exact render_inj].
  destruct (validateLoop_shape newPath field settings (otherFields field))
    as [Hnone|(kind & other & Hin & Hsome)].
  - exists Valid. split; [done|by left].
  - exists (Conflict kind field other). split; [done|]. right.
    exists other. split; [by apply elem_of_otherFields|].
    destruct kind; [by left|by right].
Qed.

(** C7.  Nesting is symmetric. *)
Theorem nesting_symmetric (P Q : jsString) :
  isNestedPath P Q = true ↔ isNestedPath Q P = true.
Proof. by rewrite isNestedPath_comm. Qed.

(** C8.  In settings that satisfy the invariant, each role's own path
    validates against the other three. *)
Theorem valid_assignment_self_consistent settings field :
  PathInvariant settings →
  validateParaFolderPath (getPath settings field) field settings = None.
Proof.
  intros Hinv. apply validate_None. intros other Hne.
  apply conflictsWith_false. by apply Hinv.
Qed.

Lemma valid_assignment_self_consistent_witness :
  PathInvariant DEFAULT_SETTINGS ∧
  validateParaFolderPath (lit "Resources") kResourcesPath DEFAULT_SETTINGS
  = None.
Proof.
  assert (Hinv : PathInvariant DEFAULT_SETTINGS).
  { apply checkInvariant_spec. vm_compute. reflexivity. }
  split; [exact Hinv|].
  exact (valid_assignment_self_consistent DEFAULT_SETTINGS kResourcesPath Hinv).
Defined.

End ValidatorClaims.

(** ** Normalisation of the typed text *)

Section Normalisation.

Implicit Types (p : codeUnit → bool) (s t raw : jsString).

Lemma dropEndWhile_split p s :
  ∃ post, s = dropEndWhile p s ++ post ∧ forallb p post = true ∧
          ∀ c, last (dropEndWhile p s) = Some c → p c = false.
Proof.
  induction s as [|c s (post & Heq & Hpost & Hlast)].
  { exists []. by repeat split. }
  cbn [dropEndWhile]. destruct (forallb p (c :: s)) eqn:Hall.
  { exists (c :: s). by repeat split. }
  exists post. split; [simpl; by rewrite <- Heq|]. split; [done|].
  intros d. destruct (dropEndWhile p s) as [|e r] eqn:Hdrop.
  - simpl. intros [= <-]. simpl in Heq, Hall. subst post.
    rewrite Hpost, andb_true_r in Hall. done.
  - intros Hd. apply Hlast. by rewrite last_cons_cons in Hd.
Qed.

Lemma head_dropEndWhile p s :
  dropEndWhile p s ≠ [] → head (dropEndWhile p s) = head s.
Proof. destruct s as [|c s]; simpl; [done|]. by destruct (p c && forallb p s). Qed.

Lemma trimStart_split s :
  ∃ pre, s = pre ++ trimStart s ∧ forallb isWhiteSpace pre = true ∧
         ∀ c, head (trimStart s) = Some c → isWhiteSpace c = false.
Proof.
  induction s as [|c s (pre & Heq & Hpre & Hhead)].
  { exists []. by repeat split. }
  simpl. destruct (isWhiteSpace c) eqn:Hc.
  - exists (c :: pre). simpl. rewrite Hc, Hpre, <- Heq. by repeat split.
  - exists []. repeat split. simpl. by intros d [= <-].
Qed.

Lemma trimStart_all s : forallb isWhiteSpace s = true → trimStart s = [].
Proof.
  induction s as [|c s IH]; simpl; [done|].
  intros [-> Hs]%andb_true_iff. by apply IH.
Qed.

Lemma trim_Trimmed raw : Trimmed raw (trim raw).
Proof.
  destruct (trimStart_split raw) as (pre & Hraw & Hpre & Hhead).
  destruct (dropEndWhile_split isWhiteSpace (trimStart raw))
    as (post & Hmid & Hpost & Hlast).
  exists pre, post. unfold trim, trimEnd.
  split; [by rewrite <- Hmid|]. do 2 (split; [done|]). split; [|done].
  intros c Hc. apply Hhead.
  rewrite <- (head_dropEndWhile isWhiteSpace); [done|].
  intros Hnil. by rewrite Hnil in Hc.
Qed.

Lemma all_slashes_replicate s :
  forallb (λ c, bool_decide (c = SLASH)) s = true →
  s = replicate (length s) SLASH.
Proof.
  induction s as [|c s IH]; simpl; [done|].
  intros [Hc Hs]%andb_true_iff. apply bool_decide_eq_true in Hc.
  by rewrite Hc, <- IH.
Qed.

Lemma strip_SlashStripped t : SlashStripped t (stripTrailingSlashes t).
Proof.
  unfold stripTrailingSlashes.
  destruct (dropEndWhile_split (λ c, bool_decide (c = SLASH)) t)
    as (post & Heq & Hpost & Hlast).
  split.
  - exists (length post). by rewrite <- (all_slashes_replicate post Hpost).
  - intros Hl. apply Hlast in Hl. by rewrite bool_decide_eq_true_2 in Hl.
Qed.

(** What is left of a trimmed, stripped, non-empty text starts with a code
    unit that is not white space. *)
Lemma stripped_not_blank raw :
  stripTrailingSlashes (trim raw) ≠ [] →
  forallb isWhiteSpace (stripTrailingSlashes (trim raw)) = false.
Proof.
  intros Hne. destruct (trim_Trimmed raw) as (_ & _ & _ & _ & _ & Hhead & _).
  unfold stripTrailingSlashes in *.
  pose proof (head_dropEndWhile _ _ Hne) as Hh.
  destruct (dropEndWhile _ (trim raw)) as [|c r]; [done|].
  simpl in *. by rewrite (Hhead c).
Qed.

Lemma blank_stripped raw :
  forallb isWhiteSpace raw = true → stripTrailingSlashes (trim raw) = [].
Proof. intros Hall. unfold trim. by rewrite trimStart_all. Qed.

End Normalisation.

(** ** The blur handler *)

Section BlurHandler.

Import Settings.

Implicit Types (text : TextComponent) (field other : ParaFolderField)
  (settings : ParaManagerSettings) (typed : jsString).

(** An error message is never the empty string, so [if (error)] tests
    exactly whether a conflict was returned. *)
Lemma truthy_validate newPath field settings :
  truthy (validateParaFolderPath newPath field settings) =
  bool_decide (validateParaFolderPath newPath field settings ≠ None).
Proof.
  destruct (validateLoop_shape newPath field settings (otherFields field))
    as [Hnone|(kind & other & _ & Hsome)]; unfold validateParaFolderPath.
  - by rewrite Hnone.
  - rewrite Hsome. by destruct kind, field, other.
Qed.

Lemma onBlur_settings text field settings :
  settings' (onBlur text field settings) =
  match validateParaFolderPath (normalize (value text) field) field settings with
  | Some _ => settings
  | None => setPath settings field (normalize (value text) field)
  end.
Proof.
  unfold onBlur. rewrite truthy_validate.
  by destruct (validateParaFolderPath _ _ _).
Qed.

Lemma onBlur_validateCalls text field settings :
  validateCalls (effects (onBlur text field settings)) =
  [normalize (value text) field].
Proof. unfold onBlur. by destruct (truthy _). Qed.

Lemma setPath_PathInvariant settings field path :
  PathInvariant settings →
  validateParaFolderPath path field settings = None →
  PathInvariant (setPath settings field path).
Proof.
  intros Hinv Hvalid r1 r2 Hne.
  pose proof (proj1 (validate_None _ _ _) Hvalid) as Hok.
  destruct (decide (r1 = field)) as [->|H1].
  - rewrite getPath_setPath, getPath_setPath_ne by done.
    by apply conflictsWith_false, Hok.
  - rewrite (getPath_setPath_ne _ _ r1) by done.
    destruct (decide (r2 = field)) as [->|H2].
    + rewrite getPath_setPath.
      destruct (proj1 (conflictsWith_false _ _) (Hok r1 H1)) as [Hdiff Hnest].
      by rewrite isNestedPath_comm.
    + rewrite getPath_setPath_ne by done. by apply Hinv.
Qed.

Lemma onBlur_PathInvariant text field settings :
  PathInvariant settings → PathInvariant (settings' (onBlur text field settings)).
Proof.
  intros Hinv. rewrite onBlur_settings.
  destruct (validateParaFolderPath _ _ _) eqn:Hv; [done|].
  by apply setPath_PathInvariant.
Qed.

Lemma act_PathInvariant a text settings :
  PathInvariant settings → PathInvariant (act a text settings).
Proof.
  intros Hinv. destruct a as [field typed|v|v]; simpl.
  - by apply onBlur_PathInvariant.
  - intros r1 r2 Hne. specialize (Hinv r1 r2 Hne). by destruct r1, r2.
  - intros r1 r2 Hne. specialize (Hinv r1 r2 Hne). by destruct r1, r2.
Qed.

(** Whatever the user does on the settings tab, in whatever order, settings
    that satisfy the invariant keep satisfying it. *)
Lemma actions_PathInvariant (actions : list Action) text settings :
  PathInvariant settings →
  PathInvariant (foldl (λ s a, act a text s) settings actions).
Proof.
  revert settings. induction actions as [|a actions IH]; intros settings Hinv.
  - done.
  - simpl. by apply IH, act_PathInvariant.
Qed.

Lemma DEFAULT_SETTINGS_PathInvariant : PathInvariant DEFAULT_SETTINGS.
Proof. apply checkInvariant_spec. vm_compute. reflexivity. Qed.

(** C5.  The commit is all or nothing.  If validation of the normalized
    text fails, the settings record after the blur is the record before it.
    If it succeeds, the edited role's path is the normalized text and every
    other path and both toggles are as before. *)
Theorem commit_is_atomic field typed text settings :
  let normalized := normalize typed field in
  let after := settings' (blurCommit field typed text settings) in
  (validateParaFolderPath normalized field settings ≠ None →
     after = settings)
  ∧ (validateParaFolderPath normalized field settings = None →
     getPath after field = normalized ∧
     (∀ other, other ≠ field → getPath after other = getPath settings other) ∧
     focusAfterArchive after = focusAfterArchive settings ∧
     confirmBeforeArchive after = confirmBeforeArchive settings).
Proof.
  intros normalized after. subst after. unfold blurCommit.
  rewrite onBlur_settings. cbn [value]. fold normalized. split.
  - intros Hfail. by destruct (validateParaFolderPath _ _ _).
  - intros ->. split; [apply getPath_setPath|].
    split; [intros other Hne; by apply getPath_setPath_ne|].
    by destruct field.
Qed.

Lemma commit_is_atomic_witness :
  let text := mkText (lit "Areas") (lit "Areas") false [] [] in
  settings' (blurCommit kAreasPath (lit " Projects/ ") text DEFAULT_SETTINGS)
    = DEFAULT_SETTINGS
  ∧ getPath
      (settings' (blurCommit kAreasPath (lit " Notes/Areas// ") text
                    DEFAULT_SETTINGS)) kAreasPath
    = lit "Notes/Areas".
Proof.
  intros text. split.
  - apply (commit_is_atomic kAreasPath (lit " Projects/ ") text
             DEFAULT_SETTINGS).
    vm_compute. discriminate.
  - apply (commit_is_atomic kAreasPath (lit " Notes/Areas// ") text
             DEFAULT_SETTINGS).
    vm_compute. reflexivity.
Defined.

(** C6.  A blur on a folder input, committed or rejected, takes settings
    that satisfy the PathAssignment invariant to settings that satisfy it. *)
Theorem blur_commit_preserves_invariant field typed text settings :
  PathInvariant settings →
  PathInvariant (settings' (blurCommit field typed text settings)).
Proof. apply onBlur_PathInvariant. Qed.

Lemma blur_commit_preserves_invariant_witness :
  PathInvariant DEFAULT_SETTINGS ∧
  PathInvariant
    (settings' (blurCommit kArchivePath (lit "Vault/Archive/")
                  (mkText (lit "Archive") (lit "Archive") false [] [])
                  DEFAULT_SETTINGS)).
Proof.
  assert (Hinv : PathInvariant DEFAULT_SETTINGS).
  { apply checkInvariant_spec. vm_compute. reflexivity. }
  split; [exact Hinv|].
  exact (blur_commit_preserves_invariant kArchivePath (lit "Vault/Archive/")
           (mkText (lit "Archive") (lit "Archive") false [] [])
           DEFAULT_SETTINGS Hinv).
Defined.

(** C9.  The blur handler calls [validateParaFolderPath] once, on a candidate
    built from the text of the input: the text without its surrounding white
    space, then without its trailing slashes, and the role's default in
    place of that when it is empty.  The candidate is never empty and never
    all white space; for a blank text it is the role's default. *)
Theorem caller_normalizes_before_validating text field settings :
  let raw := value text in
  let trimmed := trim raw in
  let stripped := stripTrailingSlashes trimmed in
  let candidate := if decide (stripped = []) then FOLDER_DEFAULTS field
                   else stripped in
  Trimmed raw trimmed
  ∧ SlashStripped trimmed stripped
  ∧ validateCalls (effects (onBlur text field settings)) = [candidate]
  ∧ candidate ≠ []
  ∧ forallb isWhiteSpace candidate = false
  ∧ (forallb isWhiteSpace raw = true → candidate = FOLDER_DEFAULTS field).
Proof.
  intros raw trimmed stripped candidate.
  split; [apply trim_Trimmed|]. split; [apply strip_SlashStripped|].
  assert (Hcand : normalize raw field = candidate).
  { unfold normalize, candidate. fold trimmed. fold stripped.
    by destruct stripped. }
  split; [by rewrite onBlur_validateCalls, <- Hcand|].
  clear Hcand. subst candidate. destruct (decide (stripped = [])) as [Hnil|Hne].
  - repeat split; by destruct field.
  - split; [done|]. split; [by apply stripped_not_blank|].
    intros Hblank. by apply blank_stripped in Hblank.
Qed.

Lemma caller_normalizes_before_validating_witness :
  let text := mkText [32; 160; 9; 12288] (lit "Areas") false [] [] in
  validateCalls (effects (onBlur text kAreasPath DEFAULT_SETTINGS))
  = [lit "Areas"].
Proof.
  intros text.
  destruct (caller_normalizes_before_validating text kAreasPath
              DEFAULT_SETTINGS) as (_ & _ & Hcall & _ & _ & Hblank).
  rewrite Hcall. apply (f_equal (λ c, [c])), Hblank. vm_compute. reflexivity.
Defined.

End BlurHandler.

(** ** The release script *)

Section ReleaseScript.

Import Release.

Implicit Types (a b c n : N) (u : Decimal.uint) (files : Files).

Lemma digitsOf_codesOf u : digitsOf (codesOf u) = Some u.
Proof. induction u as [|u IH|u IH|u IH|u IH|u IH|u IH|u IH|u IH|u IH|u IH];
         simpl; [done|by rewrite IH..]. Qed.

Lemma Number_toString n : n ≤ MAX_SAFE_INTEGER → Number (toString n) = Some n.
Proof.
  intros Hn. unfold Number, toString.
  rewrite digitsOf_codesOf, DecimalN.Unsigned.of_to.
  by rewrite (proj2 (N.leb_le _ _) Hn).
Qed.

Lemma split_codesOf u : split DOT (codesOf u) = [codesOf u].
Proof. induction u as [|u IH|u IH|u IH|u IH|u IH|u IH|u IH|u IH|u IH|u IH];
         simpl; [done|by rewrite IH..]. Qed.

Lemma split_versionString a b c :
  split DOT (versionString a b c) = [toString a; toString b; toString c].
Proof.
  unfold versionString, toString.
  by rewrite !split_app_sep, !split_codesOf.
Qed.

Lemma component_versionString a b c :
  a ≤ MAX_SAFE_INTEGER → b ≤ MAX_SAFE_INTEGER → c ≤ MAX_SAFE_INTEGER →
  component (versionString a b c) 0 = Some a ∧
  component (versionString a b c) 1 = Some b ∧
  component (versionString a b c) 2 = Some c.
Proof.
  intros Ha Hb Hc. unfold component. rewrite split_versionString. simpl.
  by rewrite !Number_toString.
Qed.

Lemma newVersion_versionString a b c :
  a ≤ MAX_SAFE_INTEGER → b ≤ MAX_SAFE_INTEGER → c ≤ MAX_SAFE_INTEGER →
  newVersion (lit "major") (versionString a b c)
    = Some (versionString (a + 1) 0 0) ∧
  newVersion (lit "minor") (versionString a b c)
    = Some (versionString a (b + 1) 0) ∧
  newVersion (lit "patch") (versionString a b c)
    = Some (versionString a b (c + 1)).
Proof.
  intros Ha Hb Hc.
  destruct (component_versionString a b c) as (Hmajor & Hminor & Hpatch);
    [done..|].
  unfold newVersion. rewrite Hmajor, Hminor, Hpatch. done.
Qed.

Lemma isBumpType_spec bump :
  isBumpType bump = true ↔
  bump = lit "patch" ∨ bump = lit "minor" ∨ bump = lit "major".
Proof.
  unfold isBumpType. rewrite bool_decide_eq_true.
  rewrite !elem_of_cons, elem_of_nil. tauto.
Qed.

Lemma release_rejects arg files :
  isBumpType (BUMP_TYPE arg) = false →
  release arg files =
  Some {| events := [ConsoleError usage; Exit 1]; files' := files |}.
Proof. intros Hbad. unfold release. by rewrite Hbad. Qed.

Lemma release_accepts arg files r :
  isBumpType (BUMP_TYPE arg) = true →
  release arg files = Some r →
  newVersion (BUMP_TYPE arg) (version (manifest_json files))
  = Some (version (manifest_json (files' r))).
Proof.
  intros Hok. unfold release. rewrite Hok. simpl.
  destruct (newVersion _ _) as [new|]; [|done]. by intros [= <-].
Qed.

(** The claim as C10 words it fails for an empty third argument: the empty
    string is none of the three bump types, yet the run is not rejected; it
    reads and writes the files and publishes a patch release. *)
Lemma empty_bump_type_is_released :
  (([] : jsString) ∉ [lit "patch"; lit "minor"; lit "major"])
  ∧ ∃ r,
      release (Some [])
        (mkFiles (mkManifest (lit "1.2.3") (lit "0.15.0")) (lit "1.2.3") [])
      = Some r
      ∧ existsb exits (events r) = false
      ∧ existsb touchesFile (events r) = true
      ∧ version (manifest_json (files' r)) = lit "1.2.4".
Proof.
  split.
  - rewrite !elem_of_cons, elem_of_nil. by intros [?|[?|[?|?]]].
  - eexists. split; [vm_compute; reflexivity|]. by vm_compute.
Qed.

(** C10, amended.  The new version is computed from the version in
    [manifest.json] and the bump type alone: for a version [a.b.c] of decimal
    numerals that are safe integers, [major] gives [(a+1).0.0], [minor] gives
    [a.(b+1).0] and [patch] gives [a.b.(c+1)].  A non-empty third argument
    other than [patch], [minor] or [major] ends the run with exit code 1 and
    nothing else than the usage line on the error stream: no file is read or
    written.  A missing or empty third argument runs as [patch]. *)
Theorem release_version_bump :
  (∀ a b c,
     a ≤ MAX_SAFE_INTEGER → b ≤ MAX_SAFE_INTEGER → c ≤ MAX_SAFE_INTEGER →
     newVersion (lit "major") (versionString a b c)
       = Some (versionString (a + 1) 0 0) ∧
     newVersion (lit "minor") (versionString a b c)
       = Some (versionString a (b + 1) 0) ∧
     newVersion (lit "patch") (versionString a b c)
       = Some (versionString a b (c + 1)))
  ∧ (∀ arg files r,
       isBumpType (BUMP_TYPE arg) = true →
       release arg files = Some r →
       newVersion (BUMP_TYPE arg) (version (manifest_json files))
       = Some (version (manifest_json (files' r))))
  ∧ (∀ arg files,
       arg ≠ [] →
       arg ∉ [lit "patch"; lit "minor"; lit "major"] →
       ∃ r, release (Some arg) files = Some r
            ∧ events r = [ConsoleError usage; Exit 1]
            ∧ existsb touchesFile (events r) = false
            ∧ files' r = files)
  ∧ (∀ files,
       release None files = release (Some (lit "patch")) files
       ∧ release (Some []) files = release (Some (lit "patch")) files).
Proof.
  split; [exact newVersion_versionString|].
  split; [exact release_accepts|]. split; [|done].
  intros arg files Hne Hbad. eexists. split.
  - apply release_rejects. destruct arg as [|c arg]; [done|].
    by apply bool_decide_eq_false.
  - done.
Qed.

Lemma release_version_bump_witness :
  newVersion (lit "minor") (lit "1.9.3") = Some (lit "1.10.0")
  ∧ ∃ r, release (Some (lit "Major"))
           (mkFiles (mkManifest (lit "1.9.3") (lit "0.15.0")) (lit "1.9.3") [])
         = Some r
         ∧ events r = [ConsoleError usage; Exit 1].
Proof.
  destruct release_version_bump as (Hbump & _ & Hreject & _). split.
  - apply (Hbump 1 9 3); vm_compute; discriminate.
  - destruct (Hreject (lit "Major")
                (mkFiles (mkManifest (lit "1.9.3") (lit "0.15.0"))
                   (lit "1.9.3") []))
      as (r & Hr & Hev & _).
    + vm_compute. discriminate.
    + apply (bool_decide_unpack _). vm_compute. exact I.
    + by exists r.
Defined.

End ReleaseScript.

(** * Further properties of the code *)

(** ** The shape of normalized paths *)

Section NormalForm.

Import Settings.

Implicit Types (p : codeUnit → bool) (s t raw : jsString)
  (field : ParaFolderField).

Lemma forallb_last p s c : forallb p s = true → last s = Some c → p c = true.
Proof.
  induction s as [|d s IH]; [done|]. simpl forallb.
  intros [Hd Hs]%andb_true_iff. destruct s as [|e s].
  - by intros [= <-].
  - rewrite last_cons_cons. by apply IH.
Qed.

Lemma dropEndWhile_all p s : forallb p s = true → dropEndWhile p s = [].
Proof. destruct s as [|c s]; [done|]. cbn [dropEndWhile]. by intros ->. Qed.

Lemma lastIs_snoc p s c : lastIs p (s ++ [c]) = p c.
Proof. unfold lastIs. by rewrite last_snoc. Qed.

Lemma headIs_app p s t : s ≠ [] → headIs p (s ++ t) = headIs p s.
Proof. by destruct s. Qed.

(** A run of [p] appended to a text that does not end in [p] is exactly
    what is removed. *)
Lemma dropEndWhile_app p s t :
  s ≠ [] → lastIs p s = false → forallb p t = true →
  dropEndWhile p (s ++ t) = s.
Proof.
  intros Hne Hlast Ht. induction s as [|c s IH]; [done|].
  assert (Hall : forallb p ((c :: s) ++ t) = false).
  { apply not_true_is_false. rewrite forallb_app.
    intros [Hs _]%andb_true_iff. unfold lastIs in Hlast.
    destruct (last (c :: s)) as [d|] eqn:Hd.
    - by rewrite (forallb_last p (c :: s) d) in Hlast.
    - by apply last_None in Hd. }
  change (dropEndWhile p ((c :: s) ++ t))
    with (if forallb p ((c :: s) ++ t) then []
          else c :: dropEndWhile p (s ++ t)).
  rewrite Hall. f_equal. destruct s as [|d s].
  - by apply dropEndWhile_all.
  - apply IH; [done|]. unfold lastIs in *. by rewrite last_cons_cons in Hlast.
Qed.

Lemma dropEndWhile_fixed p s : lastIs p s = false → dropEndWhile p s = s.
Proof.
  intros Hlast. destruct (decide (s = [])) as [->|Hne]; [done|].
  rewrite <- (app_nil_r s) at 1. by apply dropEndWhile_app.
Qed.

Lemma trimStart_fixed s : headIs isWhiteSpace s = false → trimStart s = s.
Proof. destruct s as [|c s]; [done|]. unfold headIs. simpl. by intros ->. Qed.

Lemma isTidy_spec s :
  isTidy s = true ↔
  s ≠ [] ∧ headIs isWhiteSpace s = false ∧ lastIs isSlash s = false
  ∧ lastIs isWhiteSpace s = false.
Proof.
  unfold isTidy, isCommittable.
  rewrite !andb_true_iff, !negb_true_iff, bool_decide_eq_true. tauto.
Qed.

Lemma normalize_tidy s field : isTidy s = true → normalize s field = s.
Proof.
  intros (Hne & Hhead & Hslash & Hws)%isTidy_spec.
  unfold normalize, trim, trimEnd, stripTrailingSlashes.
  rewrite trimStart_fixed, (dropEndWhile_fixed isWhiteSpace) by done.
  rewrite (dropEndWhile_fixed isSlash) by done. by destruct s.
Qed.

Lemma normalize_committable raw field :
  isCommittable (normalize raw field) = true.
Proof.
  unfold normalize.
  destruct (stripTrailingSlashes (trim raw)) as [|c r] eqn:Hs.
  { by destruct field. }
  simpl orElse. rewrite <- Hs. unfold isCommittable.
  rewrite !andb_true_iff, !negb_true_iff, bool_decide_eq_true.
  assert (Hne : stripTrailingSlashes (trim raw) ≠ []) by by rewrite Hs.
  split; [split; [done|]|].
  - destruct (trim_Trimmed raw) as (_ & _ & _ & _ & _ & Hhead & _).
    unfold headIs, stripTrailingSlashes in *.
    rewrite head_dropEndWhile by done.
    destruct (head (trim raw)) as [d|] eqn:Hd; [by apply Hhead|done].
  - destruct (strip_SlashStripped (trim raw)) as [_ Hlast].
    unfold lastIs. destruct (last _) as [d|]; [|done].
    unfold isSlash. apply bool_decide_eq_false. by intros ->.
Qed.

End NormalForm.

(** ** More on the settings tab *)

Section SettingsTab.

Import Settings.

Implicit Types (text : TextComponent) (field other : ParaFolderField)
  (settings : ParaManagerSettings) (typed s : jsString).

Lemma dropEndWhile_length p s : (length (dropEndWhile p s) ≤ length s)%nat.
Proof.
  destruct (dropEndWhile_split p s) as (post & Heq & _).
  rewrite Heq at 2. rewrite length_app. lia.
Qed.

Lemma trimStart_length s : (length (trimStart s) ≤ length s)%nat.
Proof.
  destruct (trimStart_split s) as (pre & Heq & _).
  rewrite Heq at 2. rewrite length_app. lia.
Qed.

Lemma dropEndWhile_same_length p s :
  length (dropEndWhile p s) = length s → dropEndWhile p s = s.
Proof.
  destruct (dropEndWhile_split p s) as (post & Heq & _). intros Hlen.
  rewrite Heq in Hlen at 2. rewrite length_app in Hlen.
  destruct post; [by rewrite app_nil_r in Heq|simpl in Hlen; lia].
Qed.

Lemma trimStart_same_length s :
  length (trimStart s) = length s → trimStart s = s.
Proof.
  destruct (trimStart_split s) as (pre & Heq & _). intros Hlen.
  rewrite Heq in Hlen at 2. rewrite length_app in Hlen.
  destruct pre; [done|simpl in Hlen; lia].
Qed.

Lemma setPath_getPath settings field :
  setPath settings field (getPath settings field) = settings.
Proof. by destruct settings, field. Qed.

(** Validation reads nothing but the paths of the other roles. *)
Lemma validate_ext newPath field settings1 settings2 :
  (∀ other, other ≠ field →
     getPath settings1 other = getPath settings2 other) →
  validateParaFolderPath newPath field settings1 =
  validateParaFolderPath newPath field settings2.
Proof.
  intros Hext. apply validateLoop_ext. intros other Hin.
  by apply Hext, elem_of_otherFields.
Qed.

Lemma onBlur_effects text field settings :
  let out := onBlur text field settings in
  match validateParaFolderPath (normalize (value text) field) field settings with
  | Some message =>
      notices (effects out) = [message] ∧ saves (effects out) = []
      ∧ value (text' out) = getPath settings field
      ∧ invalidClass (text' out) = true
  | None =>
      notices (effects out) = [] ∧ saves (effects out) = [settings' out]
      ∧ value (text' out) = value text
      ∧ invalidClass (text' out) = false
  end.
Proof.
  intros out. subst out. unfold onBlur. rewrite truthy_validate.
  by destruct (validateParaFolderPath _ _ _).
Qed.

Lemma act_CommittablePaths a text settings :
  CommittablePaths settings → CommittablePaths (act a text settings).
Proof.
  intros Hok f. destruct a as [field typed|v|v]; simpl.
  - unfold blurCommit. rewrite onBlur_settings. cbn [value].
    destruct (validateParaFolderPath _ _ _); [apply Hok|].
    destruct (decide (f = field)) as [->|Hne].
    + rewrite getPath_setPath. apply normalize_committable.
    + rewrite getPath_setPath_ne by done. apply Hok.
  - specialize (Hok f). by destruct f.
  - specialize (Hok f). by destruct f.
Qed.

(** X1.  A blur either commits or complains, never both: when validation
    returns a message, that message is the one notice shown, nothing is
    saved, and the input goes back to the committed path and is marked
    invalid; when validation passes, no notice is shown, the new record is
    saved once, and the input keeps the text as typed. *)
Theorem blur_saves_or_notifies text field settings :
  let out := onBlur text field settings in
  match validateParaFolderPath (normalize (value text) field) field settings with
  | Some message =>
      notices (effects out) = [message] ∧ saves (effects out) = []
      ∧ settings' out = settings
      ∧ value (text' out) = getPath settings field
      ∧ invalidClass (text' out) = true
      ∧ invalidClass (clearErrorStyling (text' out)) = false
      ∧ value (clearErrorStyling (text' out)) = getPath settings field
  | None =>
      notices (effects out) = []
      ∧ saves (effects out) = [settings' out]
      ∧ getPath (settings' out) field = normalize (value text) field
      ∧ value (text' out) = value text
      ∧ invalidClass (text' out) = false
  end.
Proof.
  intros out. pose proof (onBlur_effects text field settings) as Heff.
  pose proof (onBlur_settings text field settings) as Hset.
  fold out in Hset. simpl in Heff. fold out in Heff.
  destruct (validateParaFolderPath _ _ _).
  - destruct Heff as (? & ? & Hv & ?). repeat split; try done.
  - destruct Heff as (? & ? & ? & ?). repeat split; try done.
    rewrite Hset. apply getPath_setPath.
Qed.

(** X2.  Every path the tab ever stores is non-empty, does not start with
    white space and does not end with a slash: the defaults are such paths,
    and any sequence of edits and toggles keeps all four paths such. *)
Theorem stored_paths_stay_committable :
  CommittablePaths DEFAULT_SETTINGS
  ∧ ∀ (actions : list Action) text settings,
      CommittablePaths settings →
      CommittablePaths (foldl (λ st a, act a text st) settings actions).
Proof.
  split; [by intros []|].
  intros actions text. induction actions as [|a actions IH]; [done|].
  intros settings Hok. simpl. by apply IH, act_CommittablePaths.
Qed.

Lemma stored_paths_stay_committable_witness :
  CommittablePaths
    (foldl (λ st a, act a (mkText [] [] false [] []) st) DEFAULT_SETTINGS
       [EditFolder kProjectsPath (lit "  Work/Projects// ");
        ToggleConfirm true;
        EditFolder kAreasPath (lit "Work/")]).
Proof.
  destruct stored_paths_stay_committable as [Hdefault Hkeep].
  apply Hkeep. intros []; vm_compute; reflexivity.
Defined.

(** X3.  The paths that normalization leaves alone are exactly the tidy
    ones: non-empty, no white space at either end, no slash at the end. *)
Theorem normalize_fixed_iff_tidy s field :
  normalize s field = s ↔ isTidy s = true.
Proof.
  split; [|apply normalize_tidy].
  intros Hfix. unfold normalize in Hfix.
  destruct (stripTrailingSlashes (trim s)) as [|c r] eqn:Hs.
  { simpl in Hfix. subst s. by destruct field. }
  simpl in Hfix. assert (Hne : s ≠ []) by by rewrite <- Hfix.
  rewrite Hfix in Hs. clear c r Hfix.
  unfold stripTrailingSlashes, trim, trimEnd in Hs.
  pose proof (dropEndWhile_length isSlash
                (dropEndWhile isWhiteSpace (trimStart s))) as H1.
  pose proof (dropEndWhile_length isWhiteSpace (trimStart s)) as H2.
  pose proof (trimStart_length s) as H3.
  assert (Hlen : length (dropEndWhile isSlash
                   (dropEndWhile isWhiteSpace (trimStart s))) = length s)
    by (unfold isSlash; by rewrite Hs).
  assert (Hstart : trimStart s = s)
    by (apply trimStart_same_length; lia).
  rewrite Hstart in *.
  assert (Hend : dropEndWhile isWhiteSpace s = s)
    by (apply dropEndWhile_same_length; lia).
  rewrite Hend in *.
  destruct (trim_Trimmed s) as (_ & _ & _ & _ & _ & Hhead & Hlast).
  unfold trim, trimEnd in Hhead, Hlast. rewrite Hstart, Hend in Hhead, Hlast.
  destruct (strip_SlashStripped s) as [_ Hslash].
  unfold stripTrailingSlashes in Hslash. rewrite Hs in Hslash.
  apply isTidy_spec. unfold headIs, lastIs. repeat split.
  - done.
  - destruct (head s) as [d|]; [by apply Hhead|done].
  - destruct (last s) as [d|]; [|done]. unfold isSlash.
    apply bool_decide_eq_false. by intros ->.
  - destruct (last s) as [d|]; [by apply Hlast|done].
Qed.

End SettingsTab.

Section SettingsTabEdits.

Import Settings.

Implicit Types (text : TextComponent) (field other : ParaFolderField)
  (settings : ParaManagerSettings) (typed s : jsString).

Lemma normalize_space_slash s field :
  isTidy s = true → normalize (s ++ [32; SLASH]) field = s ++ [32].
Proof.
  intros (Hne & Hhead & Hslash & Hws)%isTidy_spec.
  unfold normalize, trim, trimEnd, stripTrailingSlashes.
  rewrite trimStart_fixed by by rewrite headIs_app.
  change (s ++ [32; SLASH]) with (s ++ [32] ++ [SLASH]).
  rewrite app_assoc.
  rewrite (dropEndWhile_fixed isWhiteSpace) by by rewrite lastIs_snoc.
  rewrite (dropEndWhile_app isSlash); [by destruct s| |by rewrite lastIs_snoc|done].
  by destruct s.
Qed.

Lemma normalize_space s field :
  isTidy s = true → normalize (s ++ [32]) field = s.
Proof.
  intros (Hne & Hhead & Hslash & Hws)%isTidy_spec.
  unfold normalize, trim, trimEnd, stripTrailingSlashes.
  rewrite trimStart_fixed by by rewrite headIs_app.
  rewrite (dropEndWhile_app isWhiteSpace) by done.
  rewrite (dropEndWhile_fixed isSlash) by done. by destruct s.
Qed.

Lemma onBlur_toggle_focus text field settings v :
  settings' (onBlur text field (onChangeFocusAfterArchive v settings)) =
  onChangeFocusAfterArchive v (settings' (onBlur text field settings)).
Proof.
  rewrite !onBlur_settings.
  rewrite (validate_ext _ field (onChangeFocusAfterArchive v settings) settings)
    by (by intros []).
  destruct (validateParaFolderPath _ _ _); [done|]. by destruct field.
Qed.

Lemma onBlur_toggle_confirm text field settings v :
  settings' (onBlur text field (onChangeConfirmBeforeArchive v settings)) =
  onChangeConfirmBeforeArchive v (settings' (onBlur text field settings)).
Proof.
  rewrite !onBlur_settings.
  rewrite (validate_ext _ field (onChangeConfirmBeforeArchive v settings)
             settings) by (by intros []).
  destruct (validateParaFolderPath _ _ _); [done|]. by destruct field.
Qed.

(** X4.  Normalization is not idempotent: white space is trimmed before the
    trailing slashes are stripped, so for a tidy path [s] the text [s] +
    [" /"] commits [s] + [" "], a path ending in a space, and blurring that
    stored path once more commits [s]. *)
Theorem normalize_leaves_space_before_slashes s field :
  isTidy s = true →
  normalize (s ++ lit " /") field = s ++ lit " "
  ∧ normalize (s ++ lit " ") field = s
  ∧ normalize (normalize (s ++ lit " /") field) field
    ≠ normalize (s ++ lit " /") field.
Proof.
  intros Htidy. change (lit " /") with [32; SLASH]. change (lit " ") with [32].
  rewrite normalize_space_slash, normalize_space by done.
  repeat split. intros Heq. apply (f_equal length) in Heq.
  rewrite length_app in Heq. simpl in Heq. lia.
Qed.

Lemma normalize_leaves_space_before_slashes_witness :
  normalize (lit "Work/Areas /") kAreasPath = lit "Work/Areas "
  ∧ normalize (lit "Work/Areas ") kAreasPath = lit "Work/Areas".
Proof.
  destruct (normalize_leaves_space_before_slashes (lit "Work/Areas") kAreasPath)
    as (H1 & H2 & _); [vm_compute; reflexivity|].
  split; [exact H1|exact H2].
Defined.

(** X5.  Leaving an input untouched changes nothing: when the settings
    satisfy the invariant and the role's committed path is tidy, a blur on
    the freshly set-up input passes validation, keeps the settings record as
    it is, saves that same record and shows no notice. *)
Theorem untouched_input_blur_keeps_settings text field settings :
  PathInvariant settings →
  isTidy (getPath settings field) = true →
  let out := onBlur (setupFolderPathInput text field settings) field settings in
  settings' out = settings
  ∧ saves (effects out) = [settings]
  ∧ notices (effects out) = [].
Proof.
  intros Hinv Htidy out.
  pose proof (onBlur_effects (setupFolderPathInput text field settings)
                field settings) as Heff.
  pose proof (onBlur_settings (setupFolderPathInput text field settings)
                field settings) as Hset.
  simpl in Heff, Hset. fold out in Heff, Hset.
  rewrite normalize_tidy in Heff, Hset by done.
  assert (Hvalid : validateParaFolderPath (getPath settings field) field
                     settings = None).
  { apply validate_None. intros other Hne.
    apply conflictsWith_false. by apply Hinv. }
  rewrite Hvalid in Heff, Hset.
  destruct Heff as (Hn & Hs & _). rewrite Hs, Hset, setPath_getPath.
  by repeat split.
Qed.

Lemma untouched_input_blur_keeps_settings_witness :
  settings' (onBlur (setupFolderPathInput (mkText [] [] false [] [])
                       kArchivePath DEFAULT_SETTINGS)
               kArchivePath DEFAULT_SETTINGS)
  = DEFAULT_SETTINGS.
Proof.
  apply (untouched_input_blur_keeps_settings (mkText [] [] false [] [])
           kArchivePath DEFAULT_SETTINGS).
  - apply checkInvariant_spec. vm_compute. reflexivity.
  - vm_compute. reflexivity.
Defined.

(** X6.  Starting from the default settings, whatever the user types into
    the folder inputs and however the toggles are switched, in any order,
    no two roles ever hold equal or nested paths. *)
Theorem reachable_settings_satisfy_invariant (actions : list Action) text :
  PathInvariant (foldl (λ st a, act a text st) DEFAULT_SETTINGS actions).
Proof. apply actions_PathInvariant, DEFAULT_SETTINGS_PathInvariant. Qed.

(** X7.  The toggles and the folder inputs do not interfere: a toggle
    changes its own flag and nothing else, the two toggles commute, the last
    switch of a toggle wins, and switching a toggle before or after a folder
    edit gives the same settings. *)
Theorem toggles_are_independent settings v w :
  (∀ field, getPath (onChangeFocusAfterArchive v settings) field
            = getPath settings field)
  ∧ (∀ field, getPath (onChangeConfirmBeforeArchive v settings) field
              = getPath settings field)
  ∧ focusAfterArchive (onChangeFocusAfterArchive v settings) = v
  ∧ confirmBeforeArchive (onChangeFocusAfterArchive v settings)
    = confirmBeforeArchive settings
  ∧ confirmBeforeArchive (onChangeConfirmBeforeArchive v settings) = v
  ∧ focusAfterArchive (onChangeConfirmBeforeArchive v settings)
    = focusAfterArchive settings
  ∧ onChangeFocusAfterArchive v (onChangeConfirmBeforeArchive w settings)
    = onChangeConfirmBeforeArchive w (onChangeFocusAfterArchive v settings)
  ∧ onChangeFocusAfterArchive v (onChangeFocusAfterArchive w settings)
    = onChangeFocusAfterArchive v settings
  ∧ onChangeConfirmBeforeArchive v (onChangeConfirmBeforeArchive w settings)
    = onChangeConfirmBeforeArchive v settings
  ∧ (∀ field typed text,
       act (EditFolder field typed) text (act (ToggleFocus v) text settings)
       = act (ToggleFocus v) text (act (EditFolder field typed) text settings))
  ∧ (∀ field typed text,
       act (EditFolder field typed) text (act (ToggleConfirm v) text settings)
       = act (ToggleConfirm v) text
           (act (EditFolder field typed) text settings)).
Proof.
  split; [by intros []|]. split; [by intros []|].
  do 7 (split; [done|]). split.
  - intros field typed text. apply onBlur_toggle_focus.
  - intros field typed text. apply onBlur_toggle_confirm.
Qed.

(** X8.  A role can never be given the path another role currently holds:
    whenever the typed text normalizes to the path of another role, the edit
    is rejected and the settings stay as they are.  In particular two roles
    cannot exchange their paths by two direct edits. *)
Theorem duplicate_path_is_rejected field other typed text settings :
  other ≠ field →
  normalize typed field = getPath settings other →
  validateParaFolderPath (normalize typed field) field settings ≠ None
  ∧ settings' (blurCommit field typed text settings) = settings.
Proof.
  intros Hne Hdup.
  assert (Hrej : validateParaFolderPath (normalize typed field) field settings
                 ≠ None).
  { intros Hnone. pose proof (proj1 (validate_None _ _ _) Hnone other Hne) as Hc.
    apply conflictsWith_false in Hc as [Hc _]. done. }
  split; [done|]. unfold blurCommit. rewrite onBlur_settings. cbn [value].
  by destruct (validateParaFolderPath _ _ _).
Qed.

Lemma duplicate_path_is_rejected_witness :
  settings' (blurCommit kProjectsPath (lit " Areas// ")
               (mkText (lit "Projects") (lit "Projects") false [] [])
               DEFAULT_SETTINGS)
  = DEFAULT_SETTINGS.
Proof.
  apply (duplicate_path_is_rejected kProjectsPath kAreasPath (lit " Areas// ")
           (mkText (lit "Projects") (lit "Projects") false [] [])
           DEFAULT_SETTINGS).
  - discriminate.
  - vm_compute. reflexivity.
Defined.

End SettingsTabEdits.

(** ** More on the release script *)

Section ReleaseRun.

Import Release.

Implicit Types (a b c n : N) (sa sb sc t rest : jsString) (files : Files).

Lemma digitOf_DOT : digitOf DOT = None.
Proof. reflexivity. Qed.

Lemma split_digits s u : digitsOf s = Some u → split DOT s = [s].
Proof.
  revert u. induction s as [|d s IH]; intros u; simpl; [done|].
  destruct (digitOf d) as [f|] eqn:Hd; [|done].
  destruct (digitsOf s) as [v|]; [|done]. intros _.
  case_bool_decide as Hdot; [by rewrite Hdot, digitOf_DOT in Hd|].
  by rewrite (IH v).
Qed.

Lemma Number_digits s n : Number s = Some n → split DOT s = [s].
Proof.
  unfold Number. destruct (digitsOf s) as [u|] eqn:Hu; [|done].
  intros _. by apply (split_digits s u).
Qed.

Lemma split_component s n t :
  Number s = Some n → ComponentEnd t →
  ∃ more, split DOT (s ++ t) = s :: more ∧
          (∀ rest, t = DOT :: rest → more = split DOT rest).
Proof.
  intros Hs [->|[rest ->]].
  - exists []. rewrite app_nil_r. split; [by apply (Number_digits s n)|done].
  - exists (split DOT rest). rewrite split_app_sep, (Number_digits s n) by done.
    split; [done|]. by intros ? [= ->].
Qed.

Lemma component_0 sa a t :
  Number sa = Some a → ComponentEnd t → component (sa ++ t) 0 = Some a.
Proof.
  intros Ha Ht. destruct (split_component sa a t Ha Ht) as (more & Hsplit & _).
  unfold component. rewrite Hsplit. simpl. by rewrite Ha.
Qed.

Lemma component_1 sa sb a b t :
  Number sa = Some a → Number sb = Some b → ComponentEnd t →
  component (sa ++ DOT :: sb ++ t) 0 = Some a
  ∧ component (sa ++ DOT :: sb ++ t) 1 = Some b.
Proof.
  intros Ha Hb Ht. split; [apply component_0; [done|right; eauto]|].
  destruct (split_component sb b t Hb Ht) as (more & Hsplit & _).
  unfold component.
  rewrite split_app_sep, (Number_digits sa a), Hsplit by done.
  simpl. by rewrite Hb.
Qed.

Lemma component_2 sa sb sc a b c t :
  Number sa = Some a → Number sb = Some b → Number sc = Some c →
  ComponentEnd t →
  component (sa ++ DOT :: sb ++ DOT :: sc ++ t) 0 = Some a
  ∧ component (sa ++ DOT :: sb ++ DOT :: sc ++ t) 1 = Some b
  ∧ component (sa ++ DOT :: sb ++ DOT :: sc ++ t) 2 = Some c.
Proof.
  intros Ha Hb Hc Ht.
  destruct (component_1 sa sb a b (DOT :: sc ++ t)) as [H0 H1];
    [done|done|right; eauto|].
  split; [done|]. split; [done|].
  destruct (split_component sc c t Hc Ht) as (more & Hsplit & _).
  unfold component.
  rewrite !split_app_sep, (Number_digits sa a), (Number_digits sb b), Hsplit
    by done.
  simpl. by rewrite Hc.
Qed.

Lemma newVersion_major sa a t :
  Number sa = Some a → ComponentEnd t →
  newVersion (lit "major") (sa ++ t) = Some (versionString (a + 1) 0 0).
Proof.
  intros Ha Ht. unfold newVersion. by rewrite (component_0 sa a t).
Qed.

Lemma newVersion_minor sa sb a b t :
  Number sa = Some a → Number sb = Some b → ComponentEnd t →
  newVersion (lit "minor") (sa ++ DOT :: sb ++ t)
  = Some (versionString a (b + 1) 0).
Proof.
  intros Ha Hb Ht. unfold newVersion.
  destruct (component_1 sa sb a b t) as [-> ->]; done.
Qed.

Lemma newVersion_patch sa sb sc a b c t :
  Number sa = Some a → Number sb = Some b → Number sc = Some c →
  ComponentEnd t →
  newVersion (lit "patch") (sa ++ DOT :: sb ++ DOT :: sc ++ t)
  = Some (versionString a b (c + 1)).
Proof.
  intros Ha Hb Hc Ht. unfold newVersion.
  destruct (component_2 sa sb sc a b c t) as (-> & -> & ->); done.
Qed.

Lemma Number_safe s n : Number s = Some n → n ≤ MAX_SAFE_INTEGER.
Proof.
  unfold Number. destruct (digitsOf s) as [u|]; [|done].
  destruct (N.leb_spec (N.of_uint u) MAX_SAFE_INTEGER); [|done].
  by intros [= <-].
Qed.

Lemma getKey_setKey key v obj : getKey key (setKey key v obj) = Some v.
Proof.
  induction obj as [|[k w] obj IH]; simpl.
  - by rewrite bool_decide_eq_true_2.
  - case_bool_decide as Hk; simpl; [by rewrite bool_decide_eq_true_2|].
    by rewrite bool_decide_eq_false_2.
Qed.

Lemma getKey_setKey_ne key key' v obj :
  key' ≠ key → getKey key' (setKey key v obj) = getKey key' obj.
Proof.
  intros Hne. induction obj as [|[k w] obj IH]; simpl.
  - by rewrite bool_decide_eq_false_2.
  - case_bool_decide as Hk; simpl.
    + subst k. by rewrite !bool_decide_eq_false_2.
    + by rewrite IH.
Qed.


(** An accepted run, laid out. *)
Lemma release_accepted arg files r :
  isBumpType (BUMP_TYPE arg) = true →
  release arg files = Some r →
  ∃ new,
    newVersion (BUMP_TYPE arg) (version (manifest_json files)) = Some new
    ∧ files' r =
      mkFiles (mkManifest new (minAppVersion (manifest_json files))) new
        (setKey new (minAppVersion (manifest_json files))
           (versions_json files))
    ∧ commands (events r) =
      [(lit "npm", [lit "run"; lit "build"]);
       (lit "git", [lit "add"; lit "manifest.json"; lit "package.json";
                    lit "versions.json"]);
       (lit "git", [lit "commit"; lit "-m"; lit "Bump version to " ++ new]);
       (lit "git", [lit "tag"; new]);
       (lit "git", [lit "push"; lit "origin"; lit "main"; lit "--tags"]);
       (lit "gh", [lit "release"; lit "create"; new; lit "--title=v" ++ new;
                   lit "--generate-notes"; lit "main.js";
                   lit "manifest.json"])]
    ∧ existsb exits (events r) = false
    ∧ ∃ pre post,
        events r = pre ++ post
        ∧ existsb isExec pre = false
        ∧ existsb touchesFile post = false.
Proof.
  intros Hok. unfold release. rewrite Hok. simpl.
  destruct (newVersion _ _) as [new|]; [|done]. intros [= <-].
  exists new. simpl. repeat split; try done.
  eexists (firstn 11 _), (skipn 11 _). by rewrite take_drop.
Qed.

End ReleaseRun.

Section ReleaseProperties.

Import Release.

Implicit Types (a b c n : N) (sa sb sc t rest : jsString) (files : Files).

(** X9.  The bump reads the version through [split('.')] and [Number], and
    each bump type reads only the components it prints: [major] needs the
    first component, [minor] the first two, [patch] the first three, and
    whatever follows them after a dot is dropped.  A component may have
    leading zeros, which are not printed back, and an empty component counts
    as zero. *)
Theorem bump_reads_leading_components :
  (∀ sa a t,
     Number sa = Some a → ComponentEnd t →
     newVersion (lit "major") (sa ++ t) = Some (versionString (a + 1) 0 0))
  ∧ (∀ sa sb a b t,
       Number sa = Some a → Number sb = Some b → ComponentEnd t →
       newVersion (lit "minor") (sa ++ DOT :: sb ++ t)
       = Some (versionString a (b + 1) 0))
  ∧ (∀ sa sb sc a b c t,
       Number sa = Some a → Number sb = Some b → Number sc = Some c →
       ComponentEnd t →
       newVersion (lit "patch") (sa ++ DOT :: sb ++ DOT :: sc ++ t)
       = Some (versionString a b (c + 1)))
  ∧ Number [] = Some 0
  ∧ (∀ s n, Number s = Some n → Number (48 :: s) = Some n).
Proof.
  split; [exact newVersion_major|]. split; [exact newVersion_minor|].
  split; [exact newVersion_patch|]. split; [done|].
  intros s n. unfold Number. simpl. by destruct (digitsOf s).
Qed.

Lemma bump_reads_leading_components_witness :
  newVersion (lit "major") (lit "7") = Some (lit "8.0.0")
  ∧ newVersion (lit "minor") (lit "01..x") = Some (lit "1.1.0")
  ∧ newVersion (lit "patch") (lit "1.2.3.4") = Some (lit "1.2.4").
Proof.
  destruct bump_reads_leading_components as (Hmajor & Hminor & Hpatch & _).
  split; [|split].
  - apply (Hmajor (lit "7") 7 []); [vm_compute; reflexivity|by left].
  - apply (Hminor (lit "01") [] 1 0 (lit ".x"));
      [vm_compute; reflexivity..|right; by eexists].
  - apply (Hpatch (lit "1") (lit "2") (lit "3") 1 2 3 (lit ".4"));
      [vm_compute; reflexivity..|right; by eexists].
Defined.

(** X10.  A run with an accepted bump type on a version whose first three
    components are numbers of the model goes through, does not exit early,
    and writes a version that is strictly greater than the old one in the
    order on (major, minor, patch). *)
Theorem release_increases_version arg files sa sb sc a b c t :
  version (manifest_json files) = sa ++ DOT :: sb ++ DOT :: sc ++ t →
  Number sa = Some a → Number sb = Some b → Number sc = Some c →
  ComponentEnd t →
  isBumpType (BUMP_TYPE arg) = true →
  ∃ r a' b' c',
    release arg files = Some r
    ∧ version (manifest_json (files' r)) = versionString a' b' c'
    ∧ versionLt (a, b, c) (a', b', c')
    ∧ existsb exits (events r) = false.
Proof.
  intros Hv Ha Hb Hc Ht Hok.
  assert (Hnew : ∃ a' b' c',
            newVersion (BUMP_TYPE arg) (version (manifest_json files))
            = Some (versionString a' b' c') ∧ versionLt (a, b, c) (a', b', c')).
  { rewrite Hv.
    destruct (proj1 (isBumpType_spec _) Hok) as [Hb' | [Hb' | Hb']];
      rewrite Hb'.
    - exists a, b, (c + 1). split; [by apply newVersion_patch|].
      simpl. right. split; [done|]. right. split; [done|]. lia.
    - exists a, (b + 1), 0. split.
      + apply (newVersion_minor sa sb a b (DOT :: sc ++ t)); [done..|].
        right. by eexists.
      + simpl. right. split; [done|]. left. lia.
    - exists (a + 1), 0, 0. split.
      + apply (newVersion_major sa a (DOT :: sb ++ DOT :: sc ++ t)); [done|].
        right. by eexists.
      + simpl. left. lia. }
  destruct Hnew as (a' & b' & c' & Hnew & Hlt).
  unfold release. rewrite Hok, Hnew. simpl.
  eexists _, a', b', c'. split; [done|]. by repeat split.
Qed.

Lemma release_increases_version_witness :
  ∃ r a' b' c',
    release (Some (lit "minor"))
      (mkFiles (mkManifest (lit "1.9.3") (lit "0.15.0")) (lit "1.9.3") [])
    = Some r
    ∧ version (manifest_json (files' r)) = versionString a' b' c'
    ∧ versionLt (1, 9, 3) (a', b', c')
    ∧ existsb exits (events r) = false.
Proof.
  apply (release_increases_version (Some (lit "minor"))
           (mkFiles (mkManifest (lit "1.9.3") (lit "0.15.0")) (lit "1.9.3") [])
           (lit "1") (lit "9") (lit "3") 1 9 3 []);
    solve [vm_compute; reflexivity | by left].
Defined.

(** X11.  Bumps compose as version levels do: a [minor] or [major] bump
    after a [patch] bump gives what it gives without the [patch] bump, a
    [major] bump after a [minor] bump likewise, and two [patch] bumps add
    two. *)
Theorem bumps_compose a b c :
  a ≤ MAX_SAFE_INTEGER → b ≤ MAX_SAFE_INTEGER → c < MAX_SAFE_INTEGER →
  let v := versionString a b c in
  (newVersion (lit "patch") v ≫= newVersion (lit "minor")
   = newVersion (lit "minor") v)
  ∧ (newVersion (lit "patch") v ≫= newVersion (lit "major")
     = newVersion (lit "major") v)
  ∧ (newVersion (lit "minor") v ≫= newVersion (lit "major")
     = newVersion (lit "major") v)
  ∧ (newVersion (lit "patch") v ≫= newVersion (lit "patch")
     = Some (versionString a b (c + 2))).
Proof.
  intros Ha Hb Hc v. subst v.
  assert (Hc' : c ≤ MAX_SAFE_INTEGER) by lia.
  assert (Hc1 : c + 1 ≤ MAX_SAFE_INTEGER) by lia.
  destruct (newVersion_versionString a b c) as (Hmajor & Hminor & Hpatch);
    [done..|].
  rewrite Hmajor, Hminor, Hpatch. simpl.
  pose proof (Number_toString a Ha) as Na.
  pose proof (Number_toString b Hb) as Nb.
  split; [|split; [|split]].
  - apply (newVersion_minor (toString a) (toString b) a b
             (DOT :: toString (c + 1))); [done..|]. right. by eexists.
  - apply (newVersion_major (toString a) a
             (DOT :: toString b ++ DOT :: toString (c + 1))); [done|].
    right. by eexists.
  - apply (newVersion_major (toString a) a
             (DOT :: toString (b + 1) ++ DOT :: toString 0)); [done|].
    right. by eexists.
  - destruct (newVersion_versionString a b (c + 1)) as (_ & _ & ->);
      [done..|].
    by rewrite <- N.add_assoc.
Qed.

Lemma bumps_compose_witness :
  newVersion (lit "patch") (lit "1.9.3") ≫= newVersion (lit "minor")
  = Some (lit "1.10.0")
  ∧ newVersion (lit "patch") (lit "1.9.3") ≫= newVersion (lit "patch")
    = Some (lit "1.9.5").
Proof.
  destruct (bumps_compose 1 9 3) as (H1 & _ & _ & H2);
    [vm_compute; discriminate..|vm_compute; reflexivity|].
  split.
  - etrans; [exact H1|]. vm_compute. reflexivity.
  - exact H2.
Defined.

(** X12.  An accepted run leaves the three files consistent: [manifest.json]
    and [package.json] carry the same new version, [minAppVersion] is
    untouched, and [versions.json] maps the new version to that
    [minAppVersion] while every other key reads as before. *)
Theorem release_updates_files_consistently arg files r :
  isBumpType (BUMP_TYPE arg) = true →
  release arg files = Some r →
  let new := version (manifest_json (files' r)) in
  newVersion (BUMP_TYPE arg) (version (manifest_json files)) = Some new
  ∧ package_json_version (files' r) = new
  ∧ minAppVersion (manifest_json (files' r))
    = minAppVersion (manifest_json files)
  ∧ getKey new (versions_json (files' r))
    = Some (minAppVersion (manifest_json files))
  ∧ ∀ key, key ≠ new →
      getKey key (versions_json (files' r)) = getKey key (versions_json files).
Proof.
  intros Hok Hrun new.
  destruct (release_accepted arg files r Hok Hrun) as (n & Hn & Hfiles & _).
  subst new. rewrite Hfiles. simpl. repeat split; try done.
  - apply getKey_setKey.
  - intros key Hne. by apply getKey_setKey_ne.
Qed.

Lemma release_updates_files_consistently_witness :
  ∃ r,
    release None
      (mkFiles (mkManifest (lit "1.9.3") (lit "0.15.0")) (lit "1.9.3")
         [(lit "1.9.3", lit "0.15.0")])
    = Some r
    ∧ package_json_version (files' r) = lit "1.9.4"
    ∧ getKey (lit "1.9.3") (versions_json (files' r)) = Some (lit "0.15.0").
Proof.
  eexists. split; [vm_compute; reflexivity|].
  match goal with
  | |- package_json_version (files' ?r) = _ ∧ _ =>
      destruct (release_updates_files_consistently None
                  (mkFiles (mkManifest (lit "1.9.3") (lit "0.15.0"))
                     (lit "1.9.3") [(lit "1.9.3", lit "0.15.0")]) r)
        as (_ & Hpkg & _ & _ & Hkeep);
        [vm_compute; reflexivity..|]
  end.
  split; [exact Hpkg|].
  rewrite Hkeep; [vm_compute; reflexivity|vm_compute; discriminate].
Defined.





End ReleaseProperties.

(** ** Edits in sequence *)

Section EditSequences.

Import Settings.

Implicit Types (text : TextComponent) (field other : ParaFolderField)
  (settings : ParaManagerSettings) (typed : jsString).

Lemma setPath_setPath settings field p q :
  setPath (setPath settings field p) field q = setPath settings field q.
Proof. by destruct field. Qed.

Lemma validate_after_own_edit newPath field settings typed text :
  validateParaFolderPath newPath field
    (settings' (blurCommit field typed text settings))
  = validateParaFolderPath newPath field settings.
Proof.
  unfold blurCommit. rewrite onBlur_settings. cbn [value].
  destruct (validateParaFolderPath (normalize typed field) field settings);
    [done|].
  apply validate_ext. intros other Hne. by apply getPath_setPath_ne.
Qed.

(** X15.  The test [if (error)] in the blur handler is exact: the value
    returned by [validateParaFolderPath] is truthy exactly when it is a
    message, because no message is the empty string. *)
Theorem error_test_is_exact newPath field settings :
  truthy (validateParaFolderPath newPath field settings) = true ↔
  validateParaFolderPath newPath field settings ≠ None.
Proof. by rewrite truthy_validate, bool_decide_eq_true. Qed.

(** X16.  For one role the last accepted edit wins: whether an edit of a
    role is accepted does not depend on what was typed into that role's
    input before, and when it is accepted the settings are the same as if
    the earlier edit had not happened. *)
Theorem last_accepted_edit_wins field typed1 typed2 text settings :
  validateParaFolderPath (normalize typed2 field) field settings = None →
  settings'
    (blurCommit field typed2 text
       (settings' (blurCommit field typed1 text settings)))
  = settings' (blurCommit field typed2 text settings).
Proof.
  intros Hvalid.
  unfold blurCommit at 1 3. rewrite !onBlur_settings. cbn [value].
  rewrite validate_after_own_edit, Hvalid.
  unfold blurCommit. rewrite onBlur_settings. cbn [value].
  destruct (validateParaFolderPath (normalize typed1 field) field settings);
    [done|apply setPath_setPath].
Qed.

Lemma last_accepted_edit_wins_witness :
  let text := mkText [] [] false [] [] in
  settings'
    (blurCommit kAreasPath (lit "Life") text
       (settings' (blurCommit kAreasPath (lit "Work/Areas/") text
                     DEFAULT_SETTINGS)))
  = settings' (blurCommit kAreasPath (lit "Life") text DEFAULT_SETTINGS).
Proof.
  intros text.
  apply (last_accepted_edit_wins kAreasPath (lit "Work/Areas/") (lit "Life")
           text DEFAULT_SETTINGS).
  vm_compute. reflexivity.
Defined.

(** X17.  Clearing an input asks for the factory default: for a text that
    is blank, or nothing but slashes once trimmed, the candidate is the path
    the default settings give the role; the edit restores it if it does not
    conflict with the other roles and is rejected otherwise. *)
Theorem clearing_restores_default field typed text settings :
  stripTrailingSlashes (trim typed) = [] →
  normalize typed field = getPath DEFAULT_SETTINGS field
  ∧ (validateParaFolderPath (getPath DEFAULT_SETTINGS field) field settings
     = None →
     getPath (settings' (blurCommit field typed text settings)) field
     = getPath DEFAULT_SETTINGS field)
  ∧ (validateParaFolderPath (getPath DEFAULT_SETTINGS field) field settings
     ≠ None →
     settings' (blurCommit field typed text settings) = settings).
Proof.
  intros Hblank.
  assert (Hnorm : normalize typed field = getPath DEFAULT_SETTINGS field).
  { unfold normalize. rewrite Hblank. by destruct field. }
  split; [done|]. unfold blurCommit. rewrite onBlur_settings. cbn [value].
  rewrite Hnorm. split.
  - intros ->. apply getPath_setPath.
  - intros Hrej. by destruct (validateParaFolderPath _ _ _).
Qed.

Lemma clearing_restores_default_witness :
  let text := mkText [] [] false [] [] in
  let moved :=
    mkSettings (lit "Projects") (lit "Areas") (lit "Archive") (lit "Old")
      true false in
  getPath (settings' (blurCommit kAreasPath (lit " // ") text
                        (setPath DEFAULT_SETTINGS kAreasPath (lit "Life"))))
    kAreasPath = lit "Areas"
  ∧ settings' (blurCommit kArchivePath [] text moved) = moved.
Proof.
  intros text moved. split.
  - apply (clearing_restores_default kAreasPath (lit " // ") text
             (setPath DEFAULT_SETTINGS kAreasPath (lit "Life")));
      vm_compute; reflexivity.
  - apply (clearing_restores_default kArchivePath [] text moved);
      [vm_compute; reflexivity|vm_compute; discriminate].
Defined.

End EditSequences.
